(** * SkillShare: real-time chat, notifications and reviews

    A shallow embedding of the server-side handlers of
    [team-contributions/04-profile-management.js] (reviews, socket.io chat,
    message routes) and [team-contributions/05-notifications-polish.js]
    (notification service and routes), with the properties of the messaging
    fan-out settled against it.

    Conventions of the embedding:
    - a JavaScript string is the [string] of its UTF-8 bytes (a string with
      an unpaired surrogate has none and is left out); the default
      [Array.prototype.sort] order, which compares UTF-16 code units, is
      computed on these bytes by [Js.sort_lt];
    - a JavaScript number is an IEEE 754 double, a [spec_float] with 53 bits
      of precision;
    - a field a client may leave out is an [option string] ([None] is
      [undefined]);
    - a MongoDB collection is a [gmap] from [_id] to document, the socket.io
      adapter a [gmap] from socket id to the set of rooms joined; users are
      kept under the string form of their [ObjectId];
    - what the outside world decides (the clock, the generated [_id], whether
      a database call fails) is read from an explicit [env]. *)

From Stdlib Require Import String Ascii SpecFloat.
From stdpp Require Import gmap strings list sorting.

Open Scope string_scope.
Open Scope list_scope.

(** ** JavaScript values *)

Module Js.

(** The order of UTF-16 code units, read on UTF-8 bytes. The two orders
    agree except between the characters above U+FFFF, which UTF-16 writes
    with surrogates (D800 to DFFF) and UTF-8 with the lead bytes F0 to F4,
    and the characters U+E000 to U+FFFF, whose lead bytes are EE and EF:
    [code_unit_key] moves the former below the latter and keeps every other
    byte where it is. *)
Definition code_unit_key (c : ascii) : ascii :=
  let n := N_of_ascii c in
  if (n <? 238)%N then c
  else if (n <? 240)%N then ascii_of_N (n + 16)
  else ascii_of_N (n - 2).

Definition code_unit_unkey (c : ascii) : ascii :=
  let n := N_of_ascii c in
  if (n <? 238)%N then c
  else if (n <? 254)%N then ascii_of_N (n + 2)
  else ascii_of_N (n - 16).

Fixpoint code_unit_keys (s : string) : string :=
  match s with
  | EmptyString => EmptyString
  | String c s' => String (code_unit_key c) (code_unit_keys s')
  end.

(** [Array.prototype.sort()] without comparator: [undefined] goes last,
    everything else is ordered by the code units of its string form. *)
Definition sort_lt (x y : option string) : bool :=
  match x, y with
  | Some a, Some b => String.ltb (code_unit_keys a) (code_unit_keys b)
  | Some _, None => true
  | None, _ => false
  end.

(** Insertion keeps an element in front of the ones it does not exceed, so
    that [sort] is the stable sort ECMAScript prescribes. *)
Fixpoint insert_sorted (x : option string) (l : list (option string))
  : list (option string) :=
  match l with
  | [] => [x]
  | y :: l' => if sort_lt y x then y :: insert_sorted x l' else x :: l
  end.

Definition sort (l : list (option string)) : list (option string) :=
  foldr insert_sorted [] l.

(** [Array.prototype.join(sep)]: [undefined] is rendered as the empty
    string. *)
Definition join (sep : string) (l : list (option string)) : string :=
  String.concat sep (map (default "") l).

(** A template literal [`${v}`] renders [undefined] as ["undefined"]. *)
Definition template (v : option string) : string :=
  default "undefined" v.

(** [v || d] on a string-or-undefined: [undefined] and [""] are falsy. *)
Definition or_else (v : option string) (d : string) : string :=
  match v with
  | Some s => if decide (s = "") then d else s
  | None => d
  end.

(** A destructuring default [{ x = d }]: only [undefined] takes it. *)
Definition default_param (v : option string) (d : string) : string :=
  default d v.

(** Numbers: binary64 with round to nearest, ties to even. *)
Definition number : Type := spec_float.

Definition NaN : number := S754_nan.

(** An integer as a number. *)
Definition of_Z (z : Z) : number := binary_normalize 53 1024 z 0 false.

(** [x + y], [x / y] and [x <= y] on numbers. *)
Definition add (x y : number) : number := SFadd 53 1024 x y.

Definition div (x y : number) : number := SFdiv 53 1024 x y.

Definition le (x y : number) : bool := SFleb x y.

Definition isNaN (x : number) : bool :=
  match x with
  | S754_nan => true
  | _ => false
  end.

(** What a [Number] path of a document reads as: the path is absent, holds
    [null], or holds a number. *)
Inductive optional_number :=
| NoNumber
| NullNumber
| SomeNumber (x : number).

(** [ToNumber], as [+] applies it to its operands: [undefined] is [NaN],
    [null] is 0. *)
Definition to_number (v : optional_number) : number :=
  match v with
  | NoNumber => NaN
  | NullNumber => of_Z 0
  | SomeNumber x => x
  end.

End Js.

(** [const threadId = [sender, recipient].sort().join('-')] *)
Definition threadId (sender recipient : option string) : string :=
  Js.join "-" (Js.sort [sender; recipient]).

(** A value as it travels in an event payload or is kept in a document. *)
#[warnings="-register-all"]
Inductive jsval :=
| JUndefined
| JString (s : string)
| JBool (b : bool)
| JNumber (x : Js.number)
| JObjectId (i : N)
| JDate (t : N)
| JObject (fields : list (string * jsval)).

Definition of_field (v : option string) : jsval :=
  from_option JString JUndefined v.

(** Property access [o.k] on an object literal. *)
Definition get (k : string) (o : list (string * jsval)) : jsval :=
  match list_find (λ kv, kv.1 = k) o with
  | Some (_, kv) => kv.2
  | None => JUndefined
  end.

Definition has_field (k : string) (o : list (string * jsval)) : bool :=
  bool_decide (k ∈ o.*1).

(** A parameter default [data = {}]: only [undefined] takes it. *)
Definition default_object (v : jsval) : jsval :=
  match v with
  | JUndefined => JObject []
  | _ => v
  end.

(** What mongoose writes of a value kept under a path of type [Object]
    (the schema option [minimize], which the schemas here leave on): of an
    object, the fields that are [undefined] or minimize to it are dropped,
    and an object left without a field is [undefined] itself, so that an
    empty object is not stored. *)
Fixpoint minimize (v : jsval) : jsval :=
  match v with
  | JObject fields =>
      let fix minimize_fields (l : list (string * jsval))
          : list (string * jsval) :=
        match l with
        | [] => []
        | (k, x) :: l' =>
            match minimize x with
            | JUndefined => minimize_fields l'
            | x' => (k, x') :: minimize_fields l'
            end
        end in
      match minimize_fields fields with
      | [] => JUndefined
      | fields' => JObject fields'
      end
  | _ => v
  end.

(** ** ObjectIds *)

Module ObjectId.

Definition is_hex (c : ascii) : bool :=
  let n := N_of_ascii c in
  ((48 <=? n) && (n <=? 57) || (97 <=? n) && (n <=? 102)
   || (65 <=? n) && (n <=? 70))%N.

(** The digits [A] to [F] in lower case. *)
Definition lower_hex (c : ascii) : ascii :=
  let n := N_of_ascii c in
  if ((65 <=? n) && (n <=? 70))%N then ascii_of_N (n + 32) else c.

Fixpoint hex_digits (s : string) : option string :=
  match s with
  | EmptyString => Some EmptyString
  | String c s' =>
      if is_hex c then String (lower_hex c) <$> hex_digits s' else None
  end.

(** The cast mongoose applies to the id of [findById] and
    [findByIdAndUpdate]: a string of 24 hexadecimal digits, in either case,
    is the ObjectId of these digits, given here in the lower-case form
    [toString()] prints; any other string is refused (so the ObjectId of
    bson 6, which mongoose 8 loads; earlier ones also took a string of 12
    bytes for the ObjectId of these bytes). *)
Definition cast (s : string) : option string :=
  if decide (String.length s = 24) then hex_digits s else None.

End ObjectId.

(** ** Documents *)

Module Message.
Record t := mk {
  _id : N;
  threadId : option string;
  sender : option string;
  recipient : option string;
  content : option string;
  type : string;
  status : string;
  createdAt : N
}.
Definition with_status (v : string) (m : t) : t :=
  mk (_id m) (threadId m) (sender m) (recipient m) (content m) (type m) v
     (createdAt m).
End Message.

Module Notification.
Record t := mk {
  _id : N;
  userId : string;
  type : string;
  title : string;
  message : string;
  data : jsval;
  read : bool;
  createdAt : N
}.
Definition with_read (v : bool) (n : t) : t :=
  mk (_id n) (userId n) (type n) (title n) (message n) (data n) v
     (createdAt n).
Definition with_data (v : jsval) (n : t) : t :=
  mk (_id n) (userId n) (type n) (title n) (message n) v (read n)
     (createdAt n).
(** The [enum] of the schema's [type] path. *)
Definition type_enum : list string :=
  ["message"; "match_request"; "match_accepted"; "session_scheduled";
   "session_reminder"; "review_received"].
End Notification.

Module Review.
Record t := mk {
  _id : N;
  userId : string;
  reviewerId : string;
  reviewerName : string;
  rating : Js.optional_number;
  comment : option string;
  createdAt : N
}.
End Review.

(** Of a user only what the handlers below read or write is kept; [_id]
    is the ObjectId in its string form. *)
Module User.
Record t := mk {
  _id : string;
  firstName : string;
  lastName : string;
  rating : Js.number
}.
Definition with_rating (v : Js.number) (u : t) : t :=
  mk (_id u) (firstName u) (lastName u) v.
End User.

(** ** The outside world *)

(** What a rejected database promise carries: the handlers read [message],
    the error middleware tells [name] and [code] apart. *)
Record error := Error {
  name : string;
  code : option N;
  message : string
}.

Definition validation_error (msg : string) : error :=
  Error "ValidationError" None msg.

(** A second document under an [_id] that is taken. *)
Definition duplicate_key : error :=
  Error "MongoServerError" (Some 11000%N) "E11000 duplicate key error".

(** A value mongoose cannot cast to the type of its path; of the message
    the value and the model are left out. *)
Definition cast_error (kind path : string) : error :=
  Error "CastError" None
        ("Cast to " +:+ kind +:+ " failed at path " +:+ path).

(** The awaited model calls of the handlers, one name per call site. *)
Inductive db_call :=
| Message_create_call
| Message_find_call
| Message_updateMany_call
| Notification_create_call
| Notification_find_call
| Notification_countDocuments_call
| Notification_findOneAndUpdate_call
| Notification_updateMany_call
| Notification_findOneAndDelete_call
| Review_findOne_call
| Review_create_call
| Review_find_call
| User_findById_call
| User_findByIdAndUpdate_call.

Record env := Env {
  now : N;                          (* Date.now() *)
  new_id : N;                       (* the ObjectId of the next document *)
  fault : db_call → option error    (* the calls the database rejects *)
}.

(** ** Server state *)

Record server := Server {
  sids : gmap string (gset string);         (* socket id ↦ rooms joined *)
  messages : gmap N Message.t;
  notifications : gmap N Notification.t;
  reviews : gmap N Review.t;
  users : gmap string User.t
}.

Definition with_sids (f : gmap string (gset string) → gmap string (gset string))
    (s : server) : server :=
  Server (f (sids s)) (messages s) (notifications s) (reviews s) (users s).

Definition with_messages (f : gmap N Message.t → gmap N Message.t)
    (s : server) : server :=
  Server (sids s) (f (messages s)) (notifications s) (reviews s) (users s).

Definition with_notifications
    (f : gmap N Notification.t → gmap N Notification.t)
    (s : server) : server :=
  Server (sids s) (messages s) (f (notifications s)) (reviews s) (users s).

Definition with_reviews (f : gmap N Review.t → gmap N Review.t)
    (s : server) : server :=
  Server (sids s) (messages s) (notifications s) (f (reviews s)) (users s).

Definition with_users (f : gmap string User.t → gmap string User.t)
    (s : server) : server :=
  Server (sids s) (messages s) (notifications s) (reviews s) (f (users s)).

(** An event handed to the transport for one connection. *)
Record push := Push {
  target : string;
  event : string;
  payload : list (string * jsval)
}.

(** ** Handlers as computations

    A handler runs on the server state, may throw, and leaves behind the
    state it reached and the events it emitted, also when it throws. *)

Inductive outcome (A : Type) :=
| Ok (a : A)
| Throw (e : error).
Arguments Ok {A} a.
Arguments Throw {A} e.

Definition M (A : Type) : Type := server → outcome A * server * list push.

Definition ret {A} (a : A) : M A := λ s, (Ok a, s, []).

Definition throw {A} (e : error) : M A := λ s, (Throw e, s, []).

Definition bind {A B} (m : M A) (k : A → M B) : M B := λ s,
  match m s with
  | (Ok a, s1, out1) =>
      match k a s1 with (r, s2, out2) => (r, s2, out1 ++ out2) end
  | (Throw e, s1, out1) => (Throw e, s1, out1)
  end.

Definition try_catch {A} (body : M A) (handler : error → M A) : M A := λ s,
  match body s with
  | (Ok a, s1, out1) => (Ok a, s1, out1)
  | (Throw e, s1, out1) =>
      match handler e s1 with (r, s2, out2) => (r, s2, out1 ++ out2) end
  end.

Notation "x <- m ;; k" := (bind m (λ x, k))
  (at level 100, m at next level, right associativity,
   format "'[v' x  <-  m  ;;  '/' k ']'").
Notation "m ;;; k" := (bind m (λ _, k))
  (at level 100, right associativity).

Definition get_state : M server := λ s, (Ok s, s, []).

Definition modify (f : server → server) : M unit := λ s, (Ok tt, f s, []).

Definition emit (l : list push) : M unit := λ s, (Ok tt, s, l).

(** An awaited call is rejected when the environment says so. *)
Definition await (e : env) (c : db_call) : M unit :=
  match fault e c with
  | Some err => throw err
  | None => ret tt
  end.

(** ** The database (mongoose models) *)

(** The documents of a collection in its natural order. *)
Definition docs {A} (coll : gmap N A) : list A := (map_to_list coll).*2.

Definition Message_create (e : env)
    (threadId sender recipient content : option string)
    (type status : string) : M Message.t :=
  await e Message_create_call ;;;
  s <- get_state ;;
  if decide (new_id e ∈ dom (messages s)) then throw duplicate_key
  else
    let message :=
      Message.mk (new_id e) threadId sender recipient content type status
                 (now e) in
    modify (with_messages (insert (new_id e) message)) ;;;
    ret message.

Definition Message_find (e : env) (P : Message.t → Prop)
    `{!∀ m, Decision (P m)} : M (list Message.t) :=
  await e Message_find_call ;;;
  s <- get_state ;;
  ret (filter P (docs (messages s))).

Definition Message_updateMany (e : env) (P : Message.t → Prop)
    `{!∀ m, Decision (P m)} (f : Message.t → Message.t) : M unit :=
  await e Message_updateMany_call ;;;
  modify (with_messages (fmap (λ m, if decide (P m) then f m else m))).

(** [.sort({ createdAt: 1 })] and [.sort({ createdAt: -1 })]: the matching
    documents in the order of their creation time. Among documents created
    at the same time the database answers in an order of its choice; the
    merge sort gives one such answer, and the properties below are stated
    so as to hold for any. *)
Definition not_newer (a b : Message.t) : Prop :=
  (Message.createdAt a ≤ Message.createdAt b)%N.

Definition not_older (a b : Notification.t) : Prop :=
  (Notification.createdAt b ≤ Notification.createdAt a)%N.

#[global] Instance not_newer_dec a b : Decision (not_newer a b) :=
  N.le_dec (Message.createdAt a) (Message.createdAt b).

#[global] Instance not_older_dec a b : Decision (not_older a b) :=
  N.le_dec (Notification.createdAt b) (Notification.createdAt a).

Definition sort_oldest_first (l : list Message.t) : list Message.t :=
  merge_sort not_newer l.

Definition sort_newest_first (l : list Notification.t) : list Notification.t :=
  merge_sort not_older l.

(** [.skip(o)] drops, [.limit(n)] keeps at most [n]; a limit of 0 is no
    limit. *)
Definition skip_limit {A} (o n : nat) (l : list A) : list A :=
  if decide (n = 0) then drop o l else take n (drop o l).

(** [type] is [required] and restricted to the schema's [enum]; [read]
    takes its default. The document handed back holds [data] as it was
    given, the document written holds it minimized. *)
Definition Notification_create (e : env) (userId type title message : string)
    (data : jsval) : M Notification.t :=
  if bool_decide (type ∈ Notification.type_enum) then
    await e Notification_create_call ;;;
    s <- get_state ;;
    if decide (new_id e ∈ dom (notifications s)) then throw duplicate_key
    else
      let notification :=
        Notification.mk (new_id e) userId type title message data false
                        (now e) in
      modify (with_notifications
                (insert (new_id e)
                   (Notification.with_data (minimize data) notification))) ;;;
      ret notification
  else throw (validation_error "Notification validation failed: type").

Definition Notification_find (e : env) (P : Notification.t → Prop)
    `{!∀ n, Decision (P n)} : M (list Notification.t) :=
  await e Notification_find_call ;;;
  s <- get_state ;;
  ret (filter P (docs (notifications s))).

Definition Notification_countDocuments (e : env) (P : Notification.t → Prop)
    `{!∀ n, Decision (P n)} : M nat :=
  await e Notification_countDocuments_call ;;;
  s <- get_state ;;
  ret (length (filter P (docs (notifications s)))).

(** [findOneAndUpdate({ _id, ...P }, f, { new: true })] *)
Definition Notification_findOneAndUpdate (e : env) (id : N)
    (P : Notification.t → Prop) `{!∀ n, Decision (P n)}
    (f : Notification.t → Notification.t) : M (option Notification.t) :=
  await e Notification_findOneAndUpdate_call ;;;
  s <- get_state ;;
  match notifications s !! id with
  | Some n =>
      if decide (P n) then
        modify (with_notifications (insert id (f n))) ;;;
        ret (Some (f n))
      else ret None
  | None => ret None
  end.

Definition Notification_updateMany (e : env) (P : Notification.t → Prop)
    `{!∀ n, Decision (P n)} (f : Notification.t → Notification.t) : M unit :=
  await e Notification_updateMany_call ;;;
  modify (with_notifications (fmap (λ n, if decide (P n) then f n else n))).

Definition Notification_findOneAndDelete (e : env) (id : N)
    (P : Notification.t → Prop) `{!∀ n, Decision (P n)}
    : M (option Notification.t) :=
  await e Notification_findOneAndDelete_call ;;;
  s <- get_state ;;
  match notifications s !! id with
  | Some n =>
      if decide (P n) then
        modify (with_notifications (delete id)) ;;;
        ret (Some n)
      else ret None
  | None => ret None
  end.

Definition Review_findOne (e : env) (P : Review.t → Prop)
    `{!∀ r, Decision (P r)} : M (option Review.t) :=
  await e Review_findOne_call ;;;
  s <- get_state ;;
  ret (head (filter P (docs (reviews s)))).

(** [req.body.rating] as the cast of a [Number] path takes it: left out,
    [null] (the empty string is cast to it), a number (a numeric string and
    a boolean are cast to one), or a value the cast refuses (an object, an
    array, a string that is no number). *)
Inductive rating_input :=
| RatingMissing
| RatingNull
| RatingNumber (x : Js.number)
| RatingRefused.

(** The [rating] path of a review: the cast to [Number], which refuses
    [NaN], then the validators [min: 1] and [max: 5], which run on a number
    only: a review without rating, or with [null] for it, is valid. *)
Definition Review_rating (rating : rating_input)
    : option Js.optional_number :=
  match rating with
  | RatingMissing => Some Js.NoNumber
  | RatingNull => Some Js.NullNumber
  | RatingNumber x =>
      if Js.isNaN x then None
      else if Js.le (Js.of_Z 1) x && Js.le x (Js.of_Z 5)
           then Some (Js.SomeNumber x)
           else None
  | RatingRefused => None
  end.

Definition Review_create (e : env) (userId reviewerId reviewerName : string)
    (rating : rating_input) (comment : option string) : M Review.t :=
  match Review_rating rating with
  | Some rating =>
      await e Review_create_call ;;;
      s <- get_state ;;
      if decide (new_id e ∈ dom (reviews s)) then throw duplicate_key
      else
        let review :=
          Review.mk (new_id e) userId reviewerId reviewerName rating comment
                    (now e) in
        modify (with_reviews (insert (new_id e) review)) ;;;
        ret review
  | None => throw (validation_error "Review validation failed: rating")
  end.

Definition Review_find (e : env) (P : Review.t → Prop)
    `{!∀ r, Decision (P r)} : M (list Review.t) :=
  await e Review_find_call ;;;
  s <- get_state ;;
  ret (filter P (docs (reviews s))).

(** [User.findById(id)]: the id is cast to ObjectId before the call is
    made. *)
Definition User_findById (e : env) (id : string) : M (option User.t) :=
  match ObjectId.cast id with
  | Some _id =>
      await e User_findById_call ;;;
      s <- get_state ;;
      ret (users s !! _id)
  | None => throw (cast_error "ObjectId" "_id")
  end.

(** [User.findByIdAndUpdate(id, { rating })]: the id is cast to ObjectId and
    the new value to [Number], which refuses [NaN], before the call is
    made; an id no user has updates nothing. *)
Definition User_findByIdAndUpdate (e : env) (id : string)
    (rating : Js.number) : M unit :=
  match ObjectId.cast id with
  | Some _id =>
      if Js.isNaN rating then throw (cast_error "Number" "rating")
      else
        await e User_findByIdAndUpdate_call ;;;
        modify (with_users (alter (User.with_rating rating) _id))
  | None => throw (cast_error "ObjectId" "_id")
  end.

(** ** The transport (socket.io)

    A connection is in the rooms it joined; [socket.to(room)] reaches the
    room without the emitting socket, [io.to(room)] the whole room,
    [io.emit] every connection. The room each socket has under its own id is
    left out: the handlers address [user-...] rooms only. *)

Definition room_members (adapter : gmap string (gset string))
    (room : string) : gset string :=
  dom (filter (λ kv, room ∈ kv.2) adapter).

Definition broadcast (targets : gset string) (ev : string)
    (payload : list (string * jsval)) : list push :=
  (λ c, Push c ev payload) <$> elements targets.

Definition socket_join (socket room : string) : M unit :=
  modify (with_sids (alter (λ rooms, rooms ∪ {[room]}) socket)).

Definition socket_emit (socket ev : string)
    (payload : list (string * jsval)) : M unit :=
  emit [Push socket ev payload].

Definition socket_to_emit (socket room ev : string)
    (payload : list (string * jsval)) : M unit :=
  s <- get_state ;;
  emit (broadcast (room_members (sids s) room ∖ {[socket]}) ev payload).

Definition io_to_emit (room ev : string)
    (payload : list (string * jsval)) : M unit :=
  s <- get_state ;;
  emit (broadcast (room_members (sids s) room) ev payload).

Definition io_emit (ev : string) (payload : list (string * jsval)) : M unit :=
  s <- get_state ;;
  emit (broadcast (dom (sids s)) ev payload).

(** The room of a user: [`user-${userId}`]. *)
Definition user_room (userId : option string) : string :=
  "user-" +:+ Js.template userId.

(** ** Socket handlers ([io.on('connection', ...)]) *)

Module MessageData.
Record t := mk {
  threadId : option string;
  sender : option string;
  recipient : option string;
  content : option string;
  type : option string
}.
End MessageData.

Module TypingData.
Record t := mk {
  sender : option string;
  recipient : option string
}.
End TypingData.

(** [socket.on('join-user', ...)] *)
Definition on_join_user (socket : string) (userId : option string) : M unit :=
  socket_join socket (user_room userId).

(** [socket.on('send-message', ...)] *)
Definition on_send_message (e : env) (socket : string)
    (messageData : MessageData.t) : M unit :=
  try_catch
    (message <- Message_create e
        (MessageData.threadId messageData)
        (MessageData.sender messageData)
        (MessageData.recipient messageData)
        (MessageData.content messageData)
        (Js.or_else (MessageData.type messageData) "text")
        "sent" ;;
     socket_to_emit socket (user_room (MessageData.recipient messageData))
       "new-message"
       [("id", JObjectId (Message._id message));
        ("threadId", of_field (Message.threadId message));
        ("sender", of_field (Message.sender message));
        ("content", of_field (Message.content message));
        ("type", JString (Message.type message));
        ("createdAt", JDate (Message.createdAt message))] ;;;
     socket_emit socket "message-sent"
       [("id", JObjectId (Message._id message));
        ("status", JString "sent")])
    (λ error,
     socket_emit socket "message-error"
       [("error", JString "Failed to send message")]).

(** [socket.on('typing-start', ...)] and [socket.on('typing-stop', ...)] *)
Definition on_typing_start (socket : string) (data : TypingData.t) : M unit :=
  socket_to_emit socket (user_room (TypingData.recipient data)) "user-typing"
    [("sender", of_field (TypingData.sender data));
     ("isTyping", JBool true)].

Definition on_typing_stop (socket : string) (data : TypingData.t) : M unit :=
  socket_to_emit socket (user_room (TypingData.recipient data)) "user-typing"
    [("sender", of_field (TypingData.sender data));
     ("isTyping", JBool false)].

(** A new connection has joined no room; a closed one leaves all of them. *)
Definition on_connection (socket : string) : M unit :=
  modify (with_sids (λ a, if decide (socket ∈ dom a) then a
                          else <[socket := ∅]> a)).

Definition on_disconnect (socket : string) : M unit :=
  modify (with_sids (delete socket)).

(** ** HTTP routes *)

Inductive data :=
| DataMessage (m : Message.t)
| DataMessages (l : list Message.t)
| DataNotification (n : Notification.t)
| DataNotifications (l : list Notification.t) (unreadCount : nat)
| DataReview (r : Review.t).

Inductive response :=
| Success (d : data)                 (* res.json({ success: true, data }) *)
| SuccessMessage (msg : string)      (* res.json({ success: true, message }) *)
| Failure (status : nat) (err : string).  (* res.status(n).json({ error }) *)

Definition status_code (r : response) : nat :=
  match r with
  | Failure n _ => n
  | _ => 200
  end.

(** The [catch] of every route. *)
Definition internal_error (err : error) : M response :=
  ret (Failure 500 (message err)).

(** [GET /api/messages/:partnerId] *)
Definition get_messages (e : env) (userId partnerId : string) : M response :=
  try_catch
    (found <- Message_find e
        (λ m, (Message.sender m = Some userId
               ∧ Message.recipient m = Some partnerId)
              ∨ (Message.sender m = Some partnerId
                 ∧ Message.recipient m = Some userId)) ;;
     let messages := sort_oldest_first found in
     Message_updateMany e
        (λ m, Message.sender m = Some partnerId
              ∧ Message.recipient m = Some userId
              ∧ Message.status m = "sent")
        (Message.with_status "read") ;;;
     ret (Success (DataMessages messages)))
    internal_error.

(** [POST /api/messages]; [sender] is the authenticated user. *)
Definition post_messages (e : env) (sender : string)
    (recipient content type : option string) : M response :=
  try_catch
    (let type := Js.default_param type "text" in
     let threadId := threadId (Some sender) recipient in
     message <- Message_create e (Some threadId) (Some sender) recipient
                  content type "sent" ;;
     io_emit "new-message"
       [("id", JObjectId (Message._id message));
        ("threadId", of_field (Message.threadId message));
        ("sender", of_field (Message.sender message));
        ("recipient", of_field (Message.recipient message));
        ("content", of_field (Message.content message));
        ("type", JString (Message.type message));
        ("createdAt", JDate (Message.createdAt message))] ;;;
     ret (Success (DataMessage message)))
    internal_error.

(** [NotificationService.createNotification] *)
Definition createNotification (e : env)
    (userId type title message : string) (data : jsval)
    : M Notification.t :=
  try_catch
    (let data := default_object data in
     notification <- Notification_create e userId type title message data ;;
     io_to_emit (user_room (Some userId)) "new-notification"
       [("id", JObjectId (Notification._id notification));
        ("type", JString (Notification.type notification));
        ("title", JString (Notification.title notification));
        ("message", JString (Notification.message notification));
        ("data", Notification.data notification);
        ("createdAt", JDate (Notification.createdAt notification))] ;;;
     ret notification)
    (λ error, throw error).

(** [notifyMessage], [notifyMatchRequest] and [notifyMatchAccepted] *)
Definition notifyMessage (e : env)
    (recipientId senderName messagePreview : string) : M Notification.t :=
  createNotification e recipientId "message" "New Message"
    (senderName +:+ ": " +:+ messagePreview)
    (JObject [("type", JString "message")]).

Definition notifyMatchRequest (e : env) (recipientId senderName : string)
    : M Notification.t :=
  createNotification e recipientId "match_request" "New Match Request"
    (senderName +:+ " wants to connect with you!")
    (JObject [("type", JString "match_request")]).

Definition notifyMatchAccepted (e : env) (recipientId senderName : string)
    : M Notification.t :=
  createNotification e recipientId "match_accepted" "Match Accepted!"
    (senderName +:+ " accepted your match request")
    (JObject [("type", JString "match_accepted")]).

(** [GET /api/notifications]; [limit] and [offset] are the parsed query
    parameters, when given. *)
Definition get_notifications (e : env) (userId : string)
    (limit offset : option nat) : M response :=
  try_catch
    (let limit := default 50 limit in
     let offset := default 0 offset in
     found <- Notification_find e (λ n, Notification.userId n = userId) ;;
     let notifications := skip_limit offset limit (sort_newest_first found) in
     unreadCount <- Notification_countDocuments e
        (λ n, Notification.userId n = userId
              ∧ Notification.read n = false) ;;
     ret (Success (DataNotifications notifications unreadCount)))
    internal_error.

(** [PUT /api/notifications/:id/read] *)
Definition put_notification_read (e : env) (userId : string)
    (notificationId : N) : M response :=
  try_catch
    (notification <- Notification_findOneAndUpdate e notificationId
        (λ n, Notification.userId n = userId)
        (Notification.with_read true) ;;
     match notification with
     | None => ret (Failure 404 "Notification not found")
     | Some n => ret (Success (DataNotification n))
     end)
    internal_error.

(** [PUT /api/notifications/read-all] *)
Definition put_notifications_read_all (e : env) (userId : string)
    : M response :=
  try_catch
    (Notification_updateMany e
        (λ n, Notification.userId n = userId ∧ Notification.read n = false)
        (Notification.with_read true) ;;;
     ret (SuccessMessage "All notifications marked as read"))
    internal_error.

(** [DELETE /api/notifications/:id] *)
Definition delete_notification (e : env) (userId : string)
    (notificationId : N) : M response :=
  try_catch
    (notification <- Notification_findOneAndDelete e notificationId
        (λ n, Notification.userId n = userId) ;;
     match notification with
     | None => ret (Failure 404 "Notification not found")
     | Some _ => ret (SuccessMessage "Notification deleted")
     end)
    internal_error.

(** [reviews.reduce((sum, r) => sum + r.rating, 0) / reviews.length] *)
Definition averageRating (reviews : list Review.t) : Js.number :=
  Js.div
    (foldl (λ sum r, Js.add sum (Js.to_number (Review.rating r)))
           (Js.of_Z 0) reviews)
    (Js.of_Z (Z.of_nat (length reviews))).

(** [POST /api/users/:userId/reviews]; [reviewerId] is the authenticated
    user. *)
Definition post_review (e : env) (reviewerId userId : string)
    (rating : rating_input) (comment : option string) : M response :=
  try_catch
    (if decide (userId = reviewerId) then
       ret (Failure 400 "Cannot review yourself")
     else
       existingReview <- Review_findOne e
          (λ r, Review.userId r = userId
                ∧ Review.reviewerId r = reviewerId) ;;
       match existingReview with
       | Some _ => ret (Failure 400 "You have already reviewed this user")
       | None =>
           reviewer <- User_findById e reviewerId ;;
           match reviewer with
           | None => ret (Failure 404 "Reviewer not found")
           | Some reviewer =>
               review <- Review_create e userId reviewerId
                  (User.firstName reviewer +:+ " " +:+ User.lastName reviewer)
                  rating comment ;;
               reviews <- Review_find e (λ r, Review.userId r = userId) ;;
               User_findByIdAndUpdate e userId (averageRating reviews) ;;;
               ret (Success (DataReview review))
           end
       end)
    internal_error.

(** ** The server as a state machine *)

Inductive request :=
| Connection (socket : string)
| Disconnect (socket : string)
| JoinUser (socket : string) (userId : option string)
| SendMessage (socket : string) (messageData : MessageData.t)
| TypingStart (socket : string) (data : TypingData.t)
| TypingStop (socket : string) (data : TypingData.t)
| GetMessages (userId partnerId : string)
| PostMessages (sender : string) (recipient content type : option string)
| CreateNotification (userId type title message : string) (data : jsval)
| GetNotifications (userId : string) (limit offset : option nat)
| PutNotificationRead (userId : string) (notificationId : N)
| PutNotificationsReadAll (userId : string)
| DeleteNotification (userId : string) (notificationId : N)
| PostReview (reviewerId userId : string) (rating : rating_input)
             (comment : option string).

Definition result_of {A} (m : M A) (s : server) : outcome A := (m s).1.1.

Definition state_after {A} (m : M A) (s : server) : server := (m s).1.2.

Definition emitted {A} (m : M A) (s : server) : list push := (m s).2.

(** Socket events come from open connections only. *)
Definition from_socket (socket : string) (m : M unit) (s : server) : server :=
  if decide (socket ∈ dom (sids s)) then state_after m s else s.

Definition handle (e : env) (r : request) (s : server) : server :=
  match r with
  | Connection c => state_after (on_connection c) s
  | Disconnect c => state_after (on_disconnect c) s
  | JoinUser c u => from_socket c (on_join_user c u) s
  | SendMessage c d => from_socket c (on_send_message e c d) s
  | TypingStart c d => from_socket c (on_typing_start c d) s
  | TypingStop c d => from_socket c (on_typing_stop c d) s
  | GetMessages u p => state_after (get_messages e u p) s
  | PostMessages u r c t => state_after (post_messages e u r c t) s
  | CreateNotification u t ti m d =>
      state_after (createNotification e u t ti m d) s
  | GetNotifications u l o => state_after (get_notifications e u l o) s
  | PutNotificationRead u i => state_after (put_notification_read e u i) s
  | PutNotificationsReadAll u =>
      state_after (put_notifications_read_all e u) s
  | DeleteNotification u i => state_after (delete_notification e u i) s
  | PostReview a u r c => state_after (post_review e a u r c) s
  end.

(** The states a run goes through, the first one included. *)
Fixpoint trace (s : server) (l : list (env * request)) : list server :=
  s :: match l with
       | [] => []
       | (e, r) :: l' => trace (handle e r s) l'
       end.

(** ** Vocabulary of the properties *)

(** How many times [ev] was pushed to connection [c]. *)
Definition pushes_to (c ev : string) (out : list push) : nat :=
  length (filter (λ p, target p = c ∧ event p = ev) out).

(** The live connections of a user: the members of the user's room. *)
Definition connectionsFor (s : server) (userId : option string) : gset string :=
  room_members (sids s) (user_room userId).

(** The database answers every call of [e]. *)
Definition available (e : env) : Prop := ∀ c, fault e c = None.

(** [Message.create] goes through: the call is answered and the generated
    [_id] is free. *)
Definition message_persists (e : env) (s : server) : Prop :=
  fault e Message_create_call = None ∧ new_id e ∉ dom (messages s).

Definition message_persist_fails (e : env) (s : server) : Prop :=
  is_Some (fault e Message_create_call) ∨ new_id e ∈ dom (messages s).

(** Every stored message is filed under the key of its two parties. *)
Definition thread_keyed (s : server) : Prop :=
  map_Forall
    (λ _ m, Message.threadId m
            = Some (threadId (Message.sender m) (Message.recipient m)))
    (messages s).

(** The fan-out contract of a chat message as a property of the events a
    dispatch emitted: one [new-message] for each live connection of the
    recipient, one [message-sent] for the originating connection and for
    nobody else, and nothing for a connection that is neither. *)
Definition chat_fanout (s : server) (origin : string)
    (recipient : option string) (out : list push) : Prop :=
  ∀ c,
    (c ∈ connectionsFor s recipient → pushes_to c "new-message" out = 1)
    ∧ pushes_to c "message-sent" out = (if decide (c = origin) then 1 else 0)
    ∧ (c ∉ connectionsFor s recipient → c ≠ origin →
       Forall (λ p, target p ≠ c) out).

(** The failures the error taxonomy calls fatal are validation failures and
    duplicate keys; the others can be retried. *)
Definition spec_retryable (err : error) : bool :=
  negb (bool_decide (name err = "ValidationError")
        || bool_decide (code err = Some 11000%N)).

(** The [message-error] events sent to the origin tell a retryable failure
    from a fatal one: some reading of the payload gives the flag. *)
Definition carries_retry_indication (origin : string)
    (run : error → list push) : Prop :=
  ∃ indication : list (string * jsval) → bool,
    ∀ err, ∃ p, p ∈ run err ∧ target p = origin
                ∧ event p = "message-error"
                ∧ indication (payload p) = spec_retryable err.

(** An environment whose database rejects every call with [err]. *)
Definition failing (err : error) : env := Env 0 0 (λ _, Some err).

(** An environment at time [t] whose database answers and files the next
    document under [i]. *)
Definition healthy (t i : N) : env := Env t i (λ _, None).

(** The document [send-message] files and the two payloads built from it. *)
Definition sent_message (e : env) (d : MessageData.t) : Message.t :=
  Message.mk (new_id e) (MessageData.threadId d) (MessageData.sender d)
    (MessageData.recipient d) (MessageData.content d)
    (Js.or_else (MessageData.type d) "text") "sent" (now e).

Definition new_message_payload (m : Message.t) : list (string * jsval) :=
  [("id", JObjectId (Message._id m));
   ("threadId", of_field (Message.threadId m));
   ("sender", of_field (Message.sender m));
   ("content", of_field (Message.content m));
   ("type", JString (Message.type m));
   ("createdAt", JDate (Message.createdAt m))].

Definition message_sent_payload (m : Message.t) : list (string * jsval) :=
  [("id", JObjectId (Message._id m)); ("status", JString "sent")].

(** The document [POST /api/messages] files and the payload it emits. *)
Definition posted_message (e : env) (sender : string)
    (recipient content type : option string) : Message.t :=
  Message.mk (new_id e) (Some (threadId (Some sender) recipient))
    (Some sender) recipient content (Js.default_param type "text") "sent"
    (now e).

Definition posted_message_payload (m : Message.t) : list (string * jsval) :=
  [("id", JObjectId (Message._id m));
   ("threadId", of_field (Message.threadId m));
   ("sender", of_field (Message.sender m));
   ("recipient", of_field (Message.recipient m));
   ("content", of_field (Message.content m));
   ("type", JString (Message.type m));
   ("createdAt", JDate (Message.createdAt m))].

(** Concrete servers for the examples: one connection of user B, alone or
    next to one of user A. *)
Definition quiet_room : server :=
  Server {[ "cB" := {[ "user-B" ]} ]} ∅ ∅ ∅ ∅.

Definition two_users : server :=
  Server {[ "cA" := {[ "user-A" ]}; "cB" := {[ "user-B" ]} ]} ∅ ∅ ∅ ∅.

Definition hello_from_A : MessageData.t :=
  MessageData.mk (Some "A-B") (Some "A") (Some "B") (Some "hello")
                 (Some "text").

(** User A writes a note to user A, from the only connection A has. *)
Definition note_to_self : MessageData.t :=
  MessageData.mk (Some "A-A") (Some "A") (Some "A") (Some "memo")
                 (Some "text").

(** Two ways for the write to fail: the connection is lost (try again), the
    key is taken (trying again cannot help). *)
Definition network_timeout : error :=
  Error "MongoNetworkTimeoutError" None "connection timed out".

(** A third user C is connected as well. *)
Definition three_users : server :=
  Server {[ "cA" := {[ "user-A" ]}; "cB" := {[ "user-B" ]};
            "cC" := {[ "user-C" ]} ]} ∅ ∅ ∅ ∅.

(** A [send-message] whose [threadId] is not the key of its parties. *)
Definition misfiled_from_A : MessageData.t :=
  MessageData.mk (Some "x") (Some "A") (Some "B") (Some "hi") None.

(** The scenario "A sends hello to B, who has one connection open", read
    on the events emitted: B's connection gets a [new-message] with the
    sender, the content, the type and a status, A's connection a
    [message-sent] with a status. *)
Definition hello_scenario (out : list push) : Prop :=
  (∃ p, p ∈ out ∧ target p = "cB" ∧ event p = "new-message"
        ∧ get "sender" (payload p) = JString "A"
        ∧ get "content" (payload p) = JString "hello"
        ∧ get "type" (payload p) = JString "text"
        ∧ get "status" (payload p) = JString "sent")
  ∧ (∃ q, q ∈ out ∧ target q = "cA" ∧ event q = "message-sent"
          ∧ get "status" (payload q) = JString "sent").

(** The query of [GET /api/messages/:partnerId]: the messages between the
    two, in either direction. *)
Definition between (userId partnerId : string) (m : Message.t) : Prop :=
  (Message.sender m = Some userId ∧ Message.recipient m = Some partnerId)
  ∨ (Message.sender m = Some partnerId ∧ Message.recipient m = Some userId).

#[global] Instance between_dec u p m : Decision (between u p m).
Proof. unfold between. apply _. Defined.

(** The document [createNotification] hands back, and the one it leaves
    in the collection. *)
Definition created_notification (e : env)
    (userId type title message : string) (data : jsval) : Notification.t :=
  Notification.mk (new_id e) userId type title message (default_object data)
                  false (now e).

Definition stored_notification (e : env)
    (userId type title message : string) (data : jsval) : Notification.t :=
  Notification.mk (new_id e) userId type title message
                  (minimize (default_object data)) false (now e).

(** Only A is connected; B is connected nowhere. *)
Definition only_A : server :=
  Server {[ "cA" := {[ "user-A" ]} ]} ∅ ∅ ∅ ∅.

(** B holds one notification, already read. *)
Definition read_notification : Notification.t :=
  Notification.mk 7 "B" "match_accepted" "Match Accepted!"
    "A accepted your match request"
    (JObject [("type", JString "match_accepted")]) true 5.

Definition settled : server :=
  Server {[ "cB" := {[ "user-B" ]} ]} ∅ {[ 7%N := read_notification ]} ∅ ∅.

(** The rejections of [POST /api/users/:userId/reviews] the request itself
    decides: a review of oneself, a second review of the same user. *)
Definition review_refused (s : server) (reviewerId userId : string) : Prop :=
  userId = reviewerId
  ∨ ∃ i r, reviews s !! i = Some r
           ∧ Review.userId r = userId ∧ Review.reviewerId r = reviewerId.

(** From one notification store to a later one, no notification present in
    both goes from read to unread. *)
Definition read_kept (before after : gmap N Notification.t) : Prop :=
  ∀ id n n',
    before !! id = Some n → after !! id = Some n' →
    Notification.read n = true → Notification.read n' = true.

(** A run over the notifications of B: one is created, marked read, a second
    one is created, all are marked read, the first is listed. *)
Definition notification_run : list (env * request) :=
  [(healthy 1 1, CreateNotification "B" "message" "New Message" "A: hi"
                   (JObject [("type", JString "message")]));
   (healthy 2 2, PutNotificationRead "B" 1);
   (healthy 3 3, CreateNotification "B" "match_request" "New Match Request"
                   "A wants to connect with you!"
                   (JObject [("type", JString "match_request")]));
   (healthy 4 4, PutNotificationsReadAll "B");
   (healthy 5 5, GetNotifications "B" None None)].

(** What a typing handler may do: leave the server as it was, and emit
    [user-typing] events only, one to each connection of the recipient's
    room other than the emitting one, and to nobody else. *)
Definition typing_delivery (h : M unit) (socket : string)
    (recipient : option string) (s : server) : Prop :=
  result_of h s = Ok tt
  ∧ state_after h s = s
  ∧ Forall (λ p, event p = "user-typing"
                 ∧ target p ∈ connectionsFor s recipient
                 ∧ target p ≠ socket)
           (emitted h s)
  ∧ ∀ c, pushes_to c "user-typing" (emitted h s)
         = if decide (c ∈ connectionsFor s recipient ∖ {[socket]})
           then 1 else 0.

(** ** Reading a handler *)

Ltac run_handler :=
  unfold from_socket in *;
  unfold result_of, state_after, emitted,
    on_send_message, on_typing_start, on_typing_stop, on_join_user,
    on_connection, on_disconnect,
    get_messages, post_messages, createNotification, get_notifications,
    put_notification_read, put_notifications_read_all, delete_notification,
    post_review, internal_error,
    Message_create, Message_find, Message_updateMany,
    Notification_create, Notification_find, Notification_countDocuments,
    Notification_findOneAndUpdate, Notification_updateMany,
    Notification_findOneAndDelete,
    Review_findOne, Review_create, Review_find,
    User_findById, User_findByIdAndUpdate,
    socket_join, socket_emit, socket_to_emit, io_to_emit, io_emit,
    try_catch, bind, await, get_state, modify, emit, ret, throw in *.

Ltac handler_cases :=
  run_handler;
  repeat match goal with
  | _ => progress cbn [fst snd app andb sids messages notifications reviews
                       users with_sids with_messages with_notifications
                       with_reviews with_users]
  | |- context [fault ?e ?c] => destruct (fault e c) as [?err|] eqn:?
  | |- context [decide ?P] => destruct (decide P)
  | |- context [bool_decide ?P] => destruct (bool_decide P) eqn:?
  | |- context [match ?x with Some _ => _ | None => _ end] =>
      destruct x eqn:?
  | |- context [Js.isNaN ?x] => destruct (Js.isNaN x) eqn:?
  end.

(** ** Further vocabulary *)

(** The unread notifications of a user, as [countDocuments] counts them. *)
Definition unread_of (s : server) (userId : string) : nat :=
  length (filter (λ n, Notification.userId n = userId
                       ∧ Notification.read n = false)
                 (docs (notifications s))).

(** The payload [createNotification] pushes for a stored notification. *)
Definition new_notification_payload (n : Notification.t)
    : list (string * jsval) :=
  [("id", JObjectId (Notification._id n));
   ("type", JString (Notification.type n));
   ("title", JString (Notification.title n));
   ("message", JString (Notification.message n));
   ("data", Notification.data n);
   ("createdAt", JDate (Notification.createdAt n))].

(** [createNotification] cannot store: the type is not in the enum, the
    database rejects the call, or the generated [_id] is taken. *)
Definition notification_persist_fails (e : env) (s : server)
    (type : string) : Prop :=
  type ∉ Notification.type_enum
  ∨ is_Some (fault e Notification_create_call)
  ∨ new_id e ∈ dom (notifications s).

(** B holds an unread notification next to the read one. *)
Definition unread_notification : Notification.t :=
  Notification.mk 8 "B" "message" "New Message" "A: hi"
    (JObject [("type", JString "message")]) false 6.

Definition inbox : server :=
  Server {[ "cB" := {[ "user-B" ]}; "cB2" := {[ "user-B" ]};
            "cA" := {[ "user-A" ]} ]} ∅
         {[ 7%N := read_notification; 8%N := unread_notification ]}
         ∅ ∅.

(** ** The conversation list ([GET /api/messages]) *)

Module Conversation.
Record t := mk {
  partnerId : option string;
  lastMessage : Message.t;
  unreadCount : nat
}.
Definition with_unreadCount (v : nat) (c : t) : t :=
  mk (partnerId c) (lastMessage c) v.
End Conversation.

(** [.sort({ createdAt: -1 })] on messages. *)
Definition not_older_message (a b : Message.t) : Prop :=
  (Message.createdAt b ≤ Message.createdAt a)%N.

#[global] Instance not_older_message_dec a b
  : Decision (not_older_message a b) :=
  N.le_dec (Message.createdAt b) (Message.createdAt a).

Definition sort_newest_message_first (l : list Message.t) : list Message.t :=
  merge_sort not_older_message l.

(** The [Map] of conversations, as the list of its entries in insertion
    order; a key has one entry. *)
Definition conversations_has (partnerId : option string)
    (conversations : list Conversation.t) : bool :=
  bool_decide (partnerId ∈ Conversation.partnerId <$> conversations).

(** [conversations.get(partnerId).unreadCount++] *)
Definition conversations_increment (partnerId : option string)
    (conversations : list Conversation.t) : list Conversation.t :=
  (λ c, if decide (Conversation.partnerId c = partnerId)
        then Conversation.with_unreadCount (S (Conversation.unreadCount c)) c
        else c) <$> conversations.

(** [message.sender === userId ? message.recipient : message.sender] *)
Definition partner_of (userId : string) (message : Message.t)
    : option string :=
  if decide (Message.sender message = Some userId)
  then Message.recipient message
  else Message.sender message.

(** The body of [messages.forEach]. *)
Definition group_message (userId : string)
    (conversations : list Conversation.t) (message : Message.t)
    : list Conversation.t :=
  let partnerId := partner_of userId message in
  let conversations :=
    if conversations_has partnerId conversations then conversations
    else conversations ++ [Conversation.mk partnerId message 0] in
  if decide (Message.recipient message = Some userId
             ∧ Message.status message ≠ "read")
  then conversations_increment partnerId conversations
  else conversations.

Inductive conversations_response :=
| Conversations (data : list Conversation.t)
| ConversationsFailure (status : nat) (err : string).

(** [GET /api/messages] *)
Definition get_conversations (e : env) (userId : string)
    : M conversations_response :=
  try_catch
    (found <- Message_find e
        (λ m, Message.sender m = Some userId
              ∨ Message.recipient m = Some userId) ;;
     let messages := sort_newest_message_first found in
     ret (Conversations (foldl (group_message userId) [] messages)))
    (λ error, ret (ConversationsFailure 500 (message error))).

(** The user is a party of the message. *)
Definition involves (userId : string) (m : Message.t) : Prop :=
  Message.sender m = Some userId ∨ Message.recipient m = Some userId.

#[global] Instance involves_dec u m : Decision (involves u m).
Proof. unfold involves. apply _. Defined.

(** The message counts as unread for the user in the conversation with
    [partnerId]. *)
Definition unread_from (userId : string) (partnerId : option string)
    (m : Message.t) : Prop :=
  partner_of userId m = partnerId
  ∧ Message.recipient m = Some userId
  ∧ Message.status m ≠ "read".

#[global] Instance unread_from_dec u p m : Decision (unread_from u p m).
Proof. unfold unread_from. apply _. Defined.

(** What a conversation entry says about the stored messages: its last
    message is a stored message with that partner, no message with the
    partner is newer, and its counter is the number of unread messages from
    the partner. *)
Definition summarises (s : server) (userId : string) (c : Conversation.t)
    : Prop :=
  Conversation.lastMessage c ∈ docs (messages s)
  ∧ involves userId (Conversation.lastMessage c)
  ∧ partner_of userId (Conversation.lastMessage c) = Conversation.partnerId c
  ∧ (∀ m, m ∈ docs (messages s) → involves userId m →
          partner_of userId m = Conversation.partnerId c →
          (Message.createdAt m
           ≤ Message.createdAt (Conversation.lastMessage c))%N)
  ∧ Conversation.unreadCount c
    = length (filter (unread_from userId (Conversation.partnerId c))
                     (docs (messages s))).

(** What of a message never changes, and how its status may move. *)
Definition same_letter (m m' : Message.t) : Prop :=
  Message._id m' = Message._id m
  ∧ Message.threadId m' = Message.threadId m
  ∧ Message.sender m' = Message.sender m
  ∧ Message.recipient m' = Message.recipient m
  ∧ Message.content m' = Message.content m
  ∧ Message.type m' = Message.type m
  ∧ Message.createdAt m' = Message.createdAt m.

Definition status_moved (m m' : Message.t) : Prop :=
  Message.status m' = Message.status m
  ∨ (Message.status m = "sent" ∧ Message.status m' = "read").

(** Every stored message is ["sent"] or ["read"]. *)
Definition statuses_known (s : server) : Prop :=
  map_Forall (λ _ m, Message.status m = "sent" ∨ Message.status m = "read")
             (messages s).

(** A and B have written to each other; C has written to B. *)
Definition chat_history : server :=
  Server {[ "cA" := {[ "user-A" ]}; "cB" := {[ "user-B" ]} ]}
         {[ 1%N := Message.mk 1 (Some "A-B") (Some "A") (Some "B")
                     (Some "hello") "text" "sent" 10;
            2%N := Message.mk 2 (Some "A-B") (Some "B") (Some "A")
                     (Some "hi A") "text" "read" 11;
            3%N := Message.mk 3 (Some "A-B") (Some "A") (Some "B")
                     (Some "are you there?") "text" "sent" 12;
            4%N := Message.mk 4 (Some "B-C") (Some "C") (Some "B")
                     (Some "ping") "text" "sent" 13 ]}
         ∅ ∅ ∅.

(** The keys of the conversation map, and what an entry records after the
    messages [pre] have gone through [forEach]: the first of them with that
    partner, and how many of them are unread from that partner. *)
Definition partners (l : list Conversation.t) : list (option string) :=
  Conversation.partnerId <$> l.

Definition tallies (userId : string) (pre : list Message.t)
    (c : Conversation.t) : Prop :=
  head (filter (λ m, partner_of userId m = Conversation.partnerId c) pre)
  = Some (Conversation.lastMessage c)
  ∧ Conversation.unreadCount c
    = length (filter (unread_from userId (Conversation.partnerId c)) pre).

Definition grouped (userId : string) (pre : list Message.t)
    (conversations : list Conversation.t) : Prop :=
  NoDup (partners conversations)
  ∧ (∀ m, m ∈ pre → partner_of userId m ∈ partners conversations)
  ∧ Forall (tallies userId pre) conversations.

(** The review [POST /api/users/:userId/reviews] files, and the conditions
    under which the handler gets as far as filing it. *)
Definition filed_review (e : env) (reviewer : User.t)
    (reviewerId userId : string) (rating : rating_input)
    (comment : option string) : Review.t :=
  Review.mk (new_id e) userId reviewerId
    (User.firstName reviewer +:+ " " +:+ User.lastName reviewer)
    (default Js.NoNumber (Review_rating rating)) comment (now e).

(** The rating passes the cast and the validators of its path. *)
Definition rating_valid (rating : rating_input) : Prop :=
  is_Some (Review_rating rating).

(** The user an id string stands for: the one stored under the ObjectId
    the string is cast to. *)
Definition user_of (s : server) (id : string) : option User.t :=
  ObjectId.cast id ≫= λ _id, users s !! _id.

Definition review_admissible (e : env) (s : server)
    (reviewerId userId : string) (rating : rating_input) (reviewer : User.t)
    : Prop :=
  userId ≠ reviewerId
  ∧ (∀ i r, reviews s !! i = Some r →
            ¬ (Review.userId r = userId ∧ Review.reviewerId r = reviewerId))
  ∧ user_of s reviewerId = Some reviewer
  ∧ rating_valid rating
  ∧ (new_id e ∉ dom (reviews s))
  ∧ fault e Review_findOne_call = None
  ∧ fault e User_findById_call = None
  ∧ fault e Review_create_call = None.

(** The reviews written about a user. *)
Definition reviews_of (userId : string) (m : gmap N Review.t)
    : list Review.t :=
  filter (λ r, Review.userId r = userId) (docs m).

(** The ids of three users, a fourth id nobody has, and the first id as a
    client may as well write it. *)
Definition ann_id : string := "65a1f0c2b3d4e5f6a7b8c9d0".
Definition bea_id : string := "65a1f0c2b3d4e5f6a7b8c9d1".
Definition cy_id : string := "65a1f0c2b3d4e5f6a7b8c9d2".
Definition nobody_id : string := "65a1f0c2b3d4e5f6a7b8c9d3".
Definition ann_id_upper : string := "65A1F0C2B3D4E5F6A7B8C9D0".

Definition ann : User.t := User.mk ann_id "Ann" "Abel" (Js.of_Z 5).
Definition bea : User.t := User.mk bea_id "Bea" "Bell" (Js.of_Z 0).
Definition cy : User.t := User.mk cy_id "Cy" "Cole" (Js.of_Z 0).

Definition review_of_ann_by_bea : Review.t :=
  Review.mk 3 ann_id bea_id "Bea Bell" (Js.SomeNumber (Js.of_Z 5))
            (Some "great") 4.

(** Ann has one review, by Bea; Cy has none and has written none. *)
Definition review_board : server :=
  Server ∅ ∅ ∅
         {[ 3%N := review_of_ann_by_bea ]}
         {[ ann_id := ann; bea_id := bea; cy_id := cy ]}.

(** Cy reviews Ann with four stars, the database answering. *)
Definition review_env : env := healthy 30 9.

(** A review with a rating of [z] stars. *)
Definition rated (z : Z) : Review.t :=
  Review.mk 0 ann_id bea_id "Bea Bell" (Js.SomeNumber (Js.of_Z z)) None 0.

Definition one_star : rating_input := RatingNumber (Js.of_Z 1).
Definition four_stars : rating_input := RatingNumber (Js.of_Z 4).
Definition five_stars : rating_input := RatingNumber (Js.of_Z 5).

(** The database loses the connection when the reviews are read back. *)
Definition find_fails : env :=
  Env 30 9 (λ c, match c with
                 | Review_find_call => Some network_timeout
                 | _ => None
                 end).

(** ** Skills and matching *)

(** An entry of [offeredSkills]; the subdocument gets an [_id] of its
    own. *)
Module Skill.
Record t := mk {
  _id : N;
  skill : string;
  level : option string;
  description : option string
}.
End Skill.

(** Of a user what the skill routes and the matching read or write. *)
Module Profile.
Record t := mk {
  offeredSkills : list Skill.t;
  desiredSkills : list string
}.
Definition with_offeredSkills (v : list Skill.t) (u : t) : t :=
  mk v (desiredSkills u).
Definition with_desiredSkills (v : list string) (u : t) : t :=
  mk (offeredSkills u) v.
End Profile.

Section Matching.

(** [String.prototype.toLowerCase] *)
Variable toLowerCase : string → string.

(** [currentUser.desiredSkills.some(desiredSkill =>
      user.offeredSkills.some(offeredSkill =>
        offeredSkill.skill.toLowerCase() === desiredSkill.toLowerCase()))] *)
Definition hasMatchingSkills (currentUser user : Profile.t) : bool :=
  existsb (λ desiredSkill,
    existsb (λ offeredSkill,
      bool_decide (toLowerCase (Skill.skill offeredSkill)
                   = toLowerCase desiredSkill))
      (Profile.offeredSkills user))
    (Profile.desiredSkills currentUser).

Definition canTeachThem (currentUser user : Profile.t) : bool :=
  existsb (λ desiredSkill,
    existsb (λ offeredSkill,
      bool_decide (toLowerCase (Skill.skill offeredSkill)
                   = toLowerCase desiredSkill))
      (Profile.offeredSkills currentUser))
    (Profile.desiredSkills user).

(** [findMatches] *)
Definition findMatches (currentUser : Profile.t) (allUsers : list Profile.t)
    : list Profile.t :=
  List.filter (λ user, hasMatchingSkills currentUser user
                       || canTeachThem currentUser user)
              allUsers.

End Matching.

(** Lower case on the letters A to Z, to run the matching on examples. *)
Definition lower_ascii (c : ascii) : ascii :=
  let n := nat_of_ascii c in
  if (65 <=? n)%nat && (n <=? 90)%nat then ascii_of_nat (n + 32) else c.

Fixpoint lower (s : string) : string :=
  match s with
  | EmptyString => EmptyString
  | String c s' => String (lower_ascii c) (lower s')
  end.

Definition learner : Profile.t :=
  Profile.mk [] ["Piano"].

Definition pianist : Profile.t :=
  Profile.mk [Skill.mk 1 "piano" (Some "expert") None] [].

Definition idle : Profile.t := Profile.mk [] [].

(** ** The skill routes *)

Inductive skills_response (A : Type) :=
| SkillsData (data : A)
| SkillsFailure (status : nat) (err : string).
Arguments SkillsData {A} data.
Arguments SkillsFailure {A} status err.

(** [User.findById] followed by the guard [if (!user) return 404]; the
    handler body runs on the user found. [userId] is the id the token was
    signed for, the string form of the user's ObjectId, under which the
    profile is kept. [save] is what [user.save()] is answered with. *)
Definition with_user {A} (e : env) (userId : string)
    (profiles : gmap string Profile.t)
    (body : Profile.t → skills_response A * gmap string Profile.t)
    : skills_response A * gmap string Profile.t :=
  match fault e User_findById_call with
  | Some err => (SkillsFailure 500 (message err), profiles)
  | None =>
      match profiles !! userId with
      | None => (SkillsFailure 404 "User not found", profiles)
      | Some user => body user
      end
  end.

Definition save_user {A} (save : option error) (userId : string)
    (user : Profile.t) (data : A) (profiles : gmap string Profile.t)
    : skills_response A * gmap string Profile.t :=
  match save with
  | Some err => (SkillsFailure 500 (message err), profiles)
  | None => (SkillsData data, <[userId := user]> profiles)
  end.

(** [POST /api/users/skills/offered] *)
Definition post_offered_skill (e : env) (save : option error)
    (userId skill : string) (level description : option string)
    (profiles : gmap string Profile.t)
    : skills_response (list Skill.t) * gmap string Profile.t :=
  with_user e userId profiles (λ user,
    let offeredSkills :=
      Profile.offeredSkills user
      ++ [Skill.mk (new_id e) skill level description] in
    save_user save userId (Profile.with_offeredSkills offeredSkills user)
              offeredSkills profiles).

(** [DELETE /api/users/skills/offered/:skillId] *)
Definition delete_offered_skill (e : env) (save : option error)
    (userId : string) (skillId : N) (profiles : gmap string Profile.t)
    : skills_response (list Skill.t) * gmap string Profile.t :=
  with_user e userId profiles (λ user,
    let offeredSkills :=
      filter (λ skill, Skill._id skill ≠ skillId)
             (Profile.offeredSkills user) in
    save_user save userId (Profile.with_offeredSkills offeredSkills user)
              offeredSkills profiles).

(** [POST /api/users/skills/desired] *)
Definition post_desired_skill (e : env) (save : option error)
    (userId skill : string) (profiles : gmap string Profile.t)
    : skills_response (list string) * gmap string Profile.t :=
  with_user e userId profiles (λ user,
    if bool_decide (skill ∈ Profile.desiredSkills user)
    then (SkillsData (Profile.desiredSkills user), profiles)
    else
      let desiredSkills := Profile.desiredSkills user ++ [skill] in
      save_user save userId (Profile.with_desiredSkills desiredSkills user)
                desiredSkills profiles).

Section SkillRoutes.

(** [decodeURIComponent]; [None] when it throws a [URIError]. *)
Variable decodeURIComponent : string → option string.

(** [DELETE /api/users/skills/desired/:skill]; [param] is
    [req.params.skill], the path segment as the router hands it over. The
    handler decodes it before anything else, inside its [try]. *)
Definition delete_desired_skill (e : env) (save : option error)
    (userId param : string) (profiles : gmap string Profile.t)
    : skills_response (list string) * gmap string Profile.t :=
  match decodeURIComponent param with
  | None => (SkillsFailure 500 "URI malformed", profiles)
  | Some skill =>
      with_user e userId profiles (λ user,
        let desiredSkills :=
          filter (λ s, s ≠ skill) (Profile.desiredSkills user) in
        save_user save userId (Profile.with_desiredSkills desiredSkills user)
                  desiredSkills profiles)
  end.

End SkillRoutes.

Definition profiles_example : gmap string Profile.t :=
  {[ "A" := Profile.mk [Skill.mk 1 "piano" (Some "expert") None]
                       ["Chess"; "Go"] ]}.

(** A stand-in for [decodeURIComponent] to run the examples: it decodes the
    escapes of ASCII characters, and refuses a [%] that is not followed by
    two hexadecimal digits, as the built-in does; the escapes of other
    characters, which the built-in reads as UTF-8, it refuses as well. *)
Definition hex_value (c : ascii) : option N :=
  let n := N_of_ascii c in
  if ((48 <=? n) && (n <=? 57))%N then Some (n - 48)%N
  else if ((97 <=? n) && (n <=? 102))%N then Some (n - 87)%N
  else if ((65 <=? n) && (n <=? 70))%N then Some (n - 55)%N
  else None.

Fixpoint decode_ascii (s : string) : option string :=
  match s with
  | EmptyString => Some EmptyString
  | String "%" (String h (String l s')) =>
      match hex_value h, hex_value l with
      | Some a, Some b =>
          if (16 * a + b <? 128)%N
          then String (ascii_of_N (16 * a + b)) <$> decode_ascii s'
          else None
      | _, _ => None
      end
  | String "%" _ => None
  | String c s' => String c <$> decode_ascii s'
  end.

(** The same profile with every skill name rewritten by [f]. *)
Definition recase (f : string → string) (u : Profile.t) : Profile.t :=
  Profile.mk
    ((λ sk, Skill.mk (Skill._id sk) (f (Skill.skill sk)) (Skill.level sk)
                     (Skill.description sk)) <$> Profile.offeredSkills u)
    (f <$> Profile.desiredSkills u).

(** The four skill routes as one family, to speak about all of them. *)
Inductive skill_request :=
| PostOffered (skill : string) (level description : option string)
| DeleteOffered (skillId : N)
| PostDesired (skill : string)
| DeleteDesired (param : string).

Definition skill_route (decodeURIComponent : string → option string)
    (e : env) (save : option error) (userId : string)
    (r : skill_request) (profiles : gmap string Profile.t)
    : gmap string Profile.t :=
  match r with
  | PostOffered skill level description =>
      (post_offered_skill e save userId skill level description profiles).2
  | DeleteOffered skillId =>
      (delete_offered_skill e save userId skillId profiles).2
  | PostDesired skill => (post_desired_skill e save userId skill profiles).2
  | DeleteDesired param =>
      (delete_desired_skill decodeURIComponent e save userId param
                            profiles).2
  end.

(** ** Registration and login *)

Module Account.
Record t := mk {
  _id : N;
  firstName : string;
  lastName : string;
  email : string;
  password : string
}.
(** [publicUser]: the document without its [password]. *)
Record public := mk_public {
  public_id : N;
  public_firstName : string;
  public_lastName : string;
  public_email : string
}.
End Account.

Definition publicUser (user : Account.t) : Account.public :=
  Account.mk_public (Account._id user) (Account.firstName user)
                    (Account.lastName user) (Account.email user).

(** What the outside world decides in a registration or a login: the
    generated [_id], the salt, the clock of the token, and what the two
    database calls are answered with. *)
Record auth_env := AuthEnv {
  auth_id : N;
  auth_salt : N;
  auth_now : N;
  findOne_fault : option error;
  create_fault : option error
}.

Definition plain_error (msg : string) : error := Error "Error" None msg.

Section Auth.

(** [bcrypt.hash] (under a salt), [bcrypt.compare] and [jwt.sign] (of a
    user id at a time). *)
Variable bcrypt_hash : N → string → string.
Variable bcrypt_compare : string → string → bool.
Variable jwt_sign : N → N → string.

(** [User.findOne({ email })] *)
Definition User_findOne_email (email : string) (accounts : gmap N Account.t)
    : option Account.t :=
  head (filter (λ u, Account.email u = email) (docs accounts)).

(** [registerUser] *)
Definition registerUser (e : auth_env)
    (firstName lastName email password : string)
    (accounts : gmap N Account.t)
    : outcome (Account.public * string) * gmap N Account.t :=
  match findOne_fault e with
  | Some err => (Throw err, accounts)
  | None =>
      match User_findOne_email email accounts with
      | Some _ => (Throw (plain_error "User already exists"), accounts)
      | None =>
          let hashedPassword := bcrypt_hash (auth_salt e) password in
          match create_fault e with
          | Some err => (Throw err, accounts)
          | None =>
              if decide (auth_id e ∈ dom accounts)
              then (Throw duplicate_key, accounts)
              else
                let user :=
                  Account.mk (auth_id e) firstName lastName email
                             hashedPassword in
                let token := jwt_sign (auth_now e) (Account._id user) in
                (Ok (publicUser user, token), <[auth_id e := user]> accounts)
          end
      end
  end.

(** [loginUser] *)
Definition loginUser (e : auth_env) (email password : string)
    (accounts : gmap N Account.t)
    : outcome (Account.public * string) :=
  match findOne_fault e with
  | Some err => Throw err
  | None =>
      match User_findOne_email email accounts with
      | None => Throw (plain_error "User not found")
      | Some user =>
          if bcrypt_compare password (Account.password user)
          then Ok (publicUser user, jwt_sign (auth_now e) (Account._id user))
          else Throw (plain_error "Invalid credentials")
      end
  end.

End Auth.

(** No two accounts share an email. *)
Definition emails_unique (accounts : gmap N Account.t) : Prop :=
  ∀ i j u v, accounts !! i = Some u → accounts !! j = Some v →
             Account.email u = Account.email v → i = j.

(** Stand-ins to run the examples: the hash is the salted password in
    clear, the token the user id and the time. *)
Definition toy_hash (salt : N) (password : string) : string :=
  String (ascii_of_N salt) password.

Definition toy_compare (password hash : string) : bool :=
  match hash with
  | String _ p => bool_decide (p = password)
  | EmptyString => false
  end.

Definition toy_sign (now userId : N) : string :=
  String (ascii_of_N now) (String (ascii_of_N userId) EmptyString).

Definition sign_up : auth_env := AuthEnv 1 7 100 None None.
Definition sign_in : auth_env := AuthEnv 2 8 200 None None.

(** The store after Ann has signed up. *)
Definition ann_account : Account.t :=
  Account.mk 1 "Ann" "Abel" "ann@example.org" (toy_hash 7 "s3cret").

Definition ann_registered : gmap N Account.t := {[ 1%N := ann_account ]}.

(** * Properties *)

(** ** The order of strings *)

Section StringOrder.

Lemma ltb_asym (a b : string) :
  String.ltb a b = true → String.ltb b a = false.
Proof.
  unfold String.ltb. rewrite (String.compare_antisym b a).
  destruct (String.compare a b); simpl; congruence.
Qed.

Lemma ltb_total (a b : string) :
  String.ltb a b = false → String.ltb b a = false → a = b.
Proof.
  unfold String.ltb. rewrite (String.compare_antisym b a).
  destruct (String.compare a b) eqn:E; simpl; try congruence.
  intros _ _. by apply String.compare_eq_iff.
Qed.

Lemma code_unit_unkey_key (c : ascii) :
  Js.code_unit_unkey (Js.code_unit_key c) = c.
Proof. destruct c as [[] [] [] [] [] [] [] []]; reflexivity. Qed.

Lemma code_unit_keys_inj (a b : string) :
  Js.code_unit_keys a = Js.code_unit_keys b → a = b.
Proof.
  revert b. induction a as [|c a IH]; intros [|d b]; cbn; try done.
  intros [= Hc Hs]. f_equal; [|by apply IH].
  by rewrite <- (code_unit_unkey_key c), Hc, code_unit_unkey_key.
Qed.

Lemma sort_lt_asym x y : Js.sort_lt x y = true → Js.sort_lt y x = false.
Proof.
  destruct x as [a|], y as [b|]; simpl; try done. apply ltb_asym.
Qed.

(** Two values neither of which sorts before the other are joined to the
    same text in either order. *)
Lemma sort_lt_tie x y :
  Js.sort_lt x y = false → Js.sort_lt y x = false → x = y.
Proof.
  destruct x as [a|], y as [b|]; simpl; try done.
  intros H1 H2. f_equal. by apply code_unit_keys_inj, ltb_total.
Qed.

Lemma sort_pair x y :
  Js.sort [x; y] = if Js.sort_lt y x then [y; x] else [x; y].
Proof. reflexivity. Qed.

End StringOrder.

(** ** Thread keys *)

Example threadId_AB : threadId (Some "A") (Some "B") = "A-B".
Proof. reflexivity. Qed.

Example threadId_BA : threadId (Some "B") (Some "A") = "A-B".
Proof. reflexivity. Qed.

Example threadId_undefined : threadId None (Some "u1") = "u1-".
Proof. reflexivity. Qed.

(** U+10000, a surrogate pair in UTF-16, sorts before U+E000, although its
    UTF-8 bytes are the larger ones. *)
Example sort_by_code_units :
  Js.sort [Some (String "238" (String "128" (String "128" "")));
           Some (String "240" (String "144" (String "128" (String "128" ""))))]
  = [Some (String "240" (String "144" (String "128" (String "128" ""))));
     Some (String "238" (String "128" (String "128" "")))].
Proof. reflexivity. Qed.

(** C4. The thread key does not depend on the order of the pair: for all
    identities [a] and [b] (a string, or [undefined] when the field is
    missing), [[a, b].sort().join('-')] and [[b, a].sort().join('-')] are the
    same string. *)
Theorem threadId_comm (a b : option string) : threadId a b = threadId b a.
Proof.
  unfold threadId. rewrite !sort_pair.
  destruct (Js.sort_lt b a) eqn:Hba, (Js.sort_lt a b) eqn:Hab; try done.
  - apply sort_lt_asym in Hba. congruence.
  - by rewrite (sort_lt_tie a b Hab Hba).
Qed.

(** ** The transport *)

Lemma elem_of_broadcast p targets ev pl :
  p ∈ broadcast targets ev pl ↔
  target p ∈ targets ∧ event p = ev ∧ payload p = pl.
Proof.
  unfold broadcast. rewrite list_elem_of_fmap. split.
  - intros (c & -> & Hc). simpl. by rewrite elem_of_elements in Hc.
  - intros (Hc & Hev & Hp). exists (target p). split.
    + destruct p; simpl in *; by subst.
    + by apply elem_of_elements.
Qed.

Lemma pushes_to_fmap c ev ev' payload (l : list string) :
  NoDup l →
  pushes_to c ev ((λ c', Push c' ev' payload) <$> l)
  = if decide (c ∈ l ∧ ev' = ev) then 1 else 0.
Proof.
  unfold pushes_to. induction 1 as [|x l Hx Hl IH].
  - rewrite decide_False; [done|]. intros [H _]. by apply elem_of_nil in H.
  - rewrite fmap_cons, filter_cons. cbn [target event].
    destruct (decide (x = c ∧ ev' = ev)) as [[-> ->]|Hhd].
    + cbn [length]. rewrite IH.
      rewrite decide_False by (intros [? _]; done).
      rewrite decide_True; [done|]. split; [left|done].
    + rewrite IH.
      destruct (decide (c ∈ l ∧ ev' = ev)) as [[Hc ->]|H1].
      * rewrite decide_True; [done|]. split; [by right|done].
      * rewrite decide_False; [done|]. intros [H2 ->].
        apply elem_of_cons in H2 as [->|H2]; [by destruct Hhd|by destruct H1].
Qed.

Lemma pushes_to_broadcast c ev ev' payload targets :
  pushes_to c ev (broadcast targets ev' payload)
  = if decide (c ∈ targets ∧ ev' = ev) then 1 else 0.
Proof.
  unfold broadcast. rewrite pushes_to_fmap by apply NoDup_elements.
  case_decide as H1; case_decide as H2; try done.
  - destruct H2. by rewrite <- elem_of_elements.
  - destruct H1. by rewrite elem_of_elements.
Qed.

Lemma pushes_to_app c ev out1 out2 :
  pushes_to c ev (out1 ++ out2) = pushes_to c ev out1 + pushes_to c ev out2.
Proof. unfold pushes_to. by rewrite filter_app, length_app. Qed.

Lemma pushes_to_single c ev c' ev' payload :
  pushes_to c ev [Push c' ev' payload]
  = if decide (c' = c ∧ ev' = ev) then 1 else 0.
Proof.
  unfold pushes_to. rewrite filter_cons. simpl. by case_decide.
Qed.

(** ** Typing indicators *)

Lemma socket_to_emit_typing socket recipient pl s :
  typing_delivery
    (socket_to_emit socket (user_room recipient) "user-typing" pl)
    socket recipient s.
Proof.
  unfold typing_delivery. run_handler. cbn [fst snd app].
  split; [reflexivity|]. split; [reflexivity|]. split.
  - apply Forall_forall. intros p Hp. apply elem_of_broadcast in Hp.
    destruct Hp as (Hp & Hev & _).
    apply elem_of_difference in Hp as [Hin Hne].
    split; [exact Hev|]. split; [exact Hin|].
    intros Heq. apply Hne. apply elem_of_singleton. exact Heq.
  - intros c. rewrite pushes_to_broadcast.
    destruct (decide (c ∈ connectionsFor s recipient ∖ {[socket]}))
      as [Hc|Hc].
    + rewrite decide_True; [reflexivity|]. split; [exact Hc|reflexivity].
    + rewrite decide_False; [reflexivity|]. intros [Hin _]. by apply Hc.
Qed.

(** C6. A typing indicator ([typing-start] or [typing-stop]) leaves every
    store as it was (nothing is persisted), and all it emits are
    [user-typing] events to connections of the recipient's room, none of
    them the sending connection: no echo and no acknowledgment. *)
Theorem typing_indicator_delivery (socket : string) (data : TypingData.t)
    (s : server) :
  typing_delivery (on_typing_start socket data) socket
                  (TypingData.recipient data) s
  ∧ typing_delivery (on_typing_stop socket data) socket
                    (TypingData.recipient data) s.
Proof.
  unfold on_typing_start, on_typing_stop.
  split; apply socket_to_emit_typing.
Qed.

(** ** Sending a chat message *)

Lemma on_send_message_ok e socket d s :
  message_persists e s →
  on_send_message e socket d s
  = (Ok tt,
     with_messages (insert (new_id e) (sent_message e d)) s,
     broadcast (connectionsFor s (MessageData.recipient d) ∖ {[socket]})
       "new-message" (new_message_payload (sent_message e d))
     ++ [Push socket "message-sent"
           (message_sent_payload (sent_message e d))]).
Proof.
  intros [Hdb Hid]. run_handler. rewrite Hdb. cbn [fst snd app].
  rewrite decide_False by exact Hid. reflexivity.
Qed.

Lemma on_send_message_fails e socket d s :
  message_persist_fails e s →
  on_send_message e socket d s
  = (Ok tt, s,
     [Push socket "message-error"
        [("error", JString "Failed to send message")]]).
Proof.
  unfold message_persist_fails. intros Hfail. run_handler.
  destruct (fault e Message_create_call) as [err|] eqn:Hdb; [reflexivity|].
  destruct Hfail as [[? ?]|Hid]; [discriminate|].
  cbn [fst snd app]. rewrite decide_True by exact Hid. reflexivity.
Qed.

Lemma post_messages_ok e sender recipient content type s :
  message_persists e s →
  post_messages e sender recipient content type s
  = (Ok (Success
           (DataMessage (posted_message e sender recipient content type))),
     with_messages
       (insert (new_id e) (posted_message e sender recipient content type)) s,
     broadcast (dom (sids s)) "new-message"
       (posted_message_payload
          (posted_message e sender recipient content type))).
Proof.
  intros [Hdb Hid]. run_handler. rewrite Hdb. cbn [fst snd app].
  rewrite decide_False by exact Hid. cbn [fst snd app sids with_messages].
  rewrite app_nil_r. reflexivity.
Qed.

Lemma connectionsFor_connected s u : connectionsFor s u ⊆ dom (sids s).
Proof. apply dom_filter_subseteq. Qed.

Lemma message_persists_healthy t i s :
  i ∉ dom (messages s) → message_persists (healthy t i) s.
Proof. intros Hi. split; [reflexivity|exact Hi]. Qed.

Lemma fresh_in_empty (i : N) (A : Type) : i ∉ dom (∅ : gmap N A).
Proof. rewrite dom_empty_L. apply not_elem_of_empty. Qed.

(** C1, as stated, fails on both paths.
    - With B connected and nobody else, [POST /api/messages] from A to B
      stores the message and pushes [new-message], but no connection
      receives a [message-sent]: there is no originating connection for
      which the fan-out contract holds.
    - Over the socket, [socket.to] leaves the emitting socket out: when A
      writes a note to A from the only connection A has, that connection is
      a live connection of the recipient and receives no [new-message]. *)
Lemma chat_fanout_fails :
  (¬ ∃ origin,
       chat_fanout quiet_room origin (Some "B")
         (emitted
            (post_messages (healthy 1 1) "A" (Some "B") (Some "hello") None)
            quiet_room))
  ∧ ¬ chat_fanout only_A "cA" (Some "A")
        (emitted (on_send_message (healthy 1 1) "cA" note_to_self) only_A).
Proof.
  split.
  - intros [origin Hfan]. destruct (Hfan origin) as (_ & Hack & _).
    unfold emitted in Hack.
    rewrite post_messages_ok in Hack
      by (apply message_persists_healthy, fresh_in_empty).
    cbn [snd] in Hack. rewrite pushes_to_broadcast in Hack.
    rewrite decide_False in Hack by (intros [_ ?]; discriminate).
    rewrite decide_True in Hack by reflexivity. discriminate.
  - intros Hfan. destruct (Hfan "cA") as (Hnew & _ & _).
    assert ("cA" ∈ connectionsFor only_A (Some "A")) as Hin
      by (vm_compute; reflexivity).
    specialize (Hnew Hin). vm_compute in Hnew. discriminate.
Qed.

(** C1, amended. When the message is persisted:
    - on the socket path ([send-message]) every connection of the
      recipient's room other than the emitting socket gets exactly one
      [new-message], the emitting socket gets exactly one [message-sent] and
      nobody else gets one, and a connection that is neither in the room nor
      the emitting socket gets nothing;
    - on the HTTP path ([POST /api/messages]) every connection of the
      recipient's room gets exactly one [new-message], no [message-sent] is
      pushed at all, and the acknowledgment is the response, which carries
      the stored message. *)
Theorem chat_dispatch_by_path (e : env) (s : server) :
  message_persists e s →
  (∀ socket d c,
     let out := emitted (on_send_message e socket d) s in
     pushes_to c "new-message" out
     = (if decide (c ∈ connectionsFor s (MessageData.recipient d)
                   ∧ c ≠ socket) then 1 else 0)
     ∧ pushes_to c "message-sent" out = (if decide (c = socket) then 1 else 0)
     ∧ (c ∉ connectionsFor s (MessageData.recipient d) → c ≠ socket →
        Forall (λ p, target p ≠ c) out))
  ∧ (∀ sender recipient content type c,
       let h := post_messages e sender recipient content type in
       result_of h s
       = Ok (Success (DataMessage
                        (posted_message e sender recipient content type)))
       ∧ (c ∈ connectionsFor s recipient →
          pushes_to c "new-message" (emitted h s) = 1)
       ∧ pushes_to c "message-sent" (emitted h s) = 0).
Proof.
  intros Hok. split.
  - intros socket d c. unfold emitted. rewrite on_send_message_ok by exact Hok.
    cbn [snd]. rewrite !pushes_to_app, !pushes_to_broadcast, !pushes_to_single.
    split; [|split].
    + rewrite (decide_False (P := _ ∧ "message-sent" = "new-message"))
        by (intros [_ ?]; discriminate).
      rewrite Nat.add_0_r.
      destruct (decide (c ∈ connectionsFor s (MessageData.recipient d)
                        ∧ c ≠ socket)) as [[Hin Hne]|Hno].
      * rewrite decide_True; [reflexivity|]. split; [|reflexivity].
        apply elem_of_difference. split; [exact Hin|].
        intros Hc. apply Hne. by apply elem_of_singleton in Hc.
      * rewrite decide_False; [reflexivity|]. intros [Hc _].
        apply elem_of_difference in Hc as [Hin Hne]. apply Hno.
        split; [exact Hin|]. intros ->. apply Hne. by apply elem_of_singleton.
    + rewrite (decide_False (P := _ ∧ "new-message" = "message-sent"))
        by (intros [_ ?]; discriminate).
      destruct (decide (c = socket)) as [->|Hne].
      * rewrite decide_True; [reflexivity|]. by split.
      * rewrite decide_False; [reflexivity|]. intros [-> _]. by apply Hne.
    + intros Hout Hne. apply Forall_app. split.
      * apply Forall_forall. intros p Hp. apply elem_of_broadcast in Hp.
        destruct Hp as (Hp & _). apply elem_of_difference in Hp as [Hin _].
        intros Heq. apply Hout. by rewrite <- Heq.
      * constructor; [|constructor].
        cbn [target]. intros Heq. by apply Hne.
  - intros sender recipient content type c h. subst h.
    unfold result_of, emitted. rewrite post_messages_ok by exact Hok.
    cbn [fst snd]. rewrite !pushes_to_broadcast. split; [reflexivity|]. split.
    + intros Hc. rewrite decide_True; [reflexivity|]. split; [|reflexivity].
      by apply (connectionsFor_connected s recipient).
    + rewrite decide_False; [reflexivity|]. intros [_ ?]; discriminate.
Qed.

Lemma chat_dispatch_by_path_witness :
  pushes_to "cB" "new-message"
    (emitted (on_send_message (healthy 1 1) "cA" hello_from_A) two_users) = 1
  ∧ pushes_to "cB" "new-message"
      (emitted (post_messages (healthy 1 1) "A" (Some "B") (Some "hello") None)
         two_users) = 1.
Proof.
  destruct (chat_dispatch_by_path (healthy 1 1) two_users) as [Hsock Hpost].
  - split; [reflexivity|]. vm_compute. discriminate.
  - split.
    + destruct (Hsock "cA" hello_from_A "cB") as (H & _). rewrite H.
      vm_compute. reflexivity.
    + destruct (Hpost "A" (Some "B") (Some "hello") None "cB") as (_ & H & _).
      apply H. vm_compute. reflexivity.
Defined.

(** The slip of the HTTP path: [io.emit] reaches every connection, so the
    connection of a third user C receives the message A sends to B. *)
Example post_messages_reaches_third_user :
  pushes_to "cC" "new-message"
    (emitted (post_messages (healthy 1 1) "A" (Some "B") (Some "hello") None)
       three_users) = 1.
Proof. vm_compute. reflexivity. Qed.

Example send_message_spares_third_user :
  pushes_to "cC" "new-message"
    (emitted (on_send_message (healthy 1 1) "cA" hello_from_A) three_users)
  = 0.
Proof. vm_compute. reflexivity. Qed.

(** ** A failed write *)

(** C2, as stated, fails: the [message-error] payload is the same for a
    duplicate key as for a lost connection, so nothing read from it can tell
    the fatal failure from the retryable one. *)
Lemma message_error_tells_nothing :
  ¬ carries_retry_indication "cA"
      (λ err, emitted (on_send_message (failing err) "cA" hello_from_A)
                      two_users).
Proof.
  intros [indication Hind].
  destruct (Hind duplicate_key) as (p & Hp & _ & _ & Hfatal).
  destruct (Hind network_timeout) as (q & Hq & _ & _ & Hretry).
  unfold emitted in Hp, Hq.
  rewrite on_send_message_fails in Hp by (left; eexists; reflexivity).
  rewrite on_send_message_fails in Hq by (left; eexists; reflexivity).
  cbn [snd] in Hp, Hq.
  apply list_elem_of_singleton in Hp, Hq. subst p q.
  cbn [payload] in Hfatal, Hretry. rewrite Hfatal in Hretry.
  vm_compute in Hretry. discriminate.
Qed.

(** C2, amended. When persisting a chat message fails, nothing is stored,
    no [new-message] is forwarded, and the emitting socket alone receives one
    [message-error] whose payload is [{ error: 'Failed to send message' }],
    whatever the failure was. *)
Theorem failed_write_reports_error (e : env) (socket : string)
    (d : MessageData.t) (s : server) :
  message_persist_fails e s →
  state_after (on_send_message e socket d) s = s
  ∧ emitted (on_send_message e socket d) s
    = [Push socket "message-error"
         [("error", JString "Failed to send message")]]
  ∧ ∀ c, pushes_to c "new-message" (emitted (on_send_message e socket d) s)
         = 0.
Proof.
  intros Hfail. unfold state_after, emitted.
  rewrite on_send_message_fails by exact Hfail. cbn [fst snd].
  split; [reflexivity|]. split; [reflexivity|].
  intros c. rewrite pushes_to_single. rewrite decide_False; [reflexivity|].
  intros [_ ?]; discriminate.
Qed.

Lemma failed_write_reports_error_witness :
  emitted (on_send_message (failing network_timeout) "cA" hello_from_A)
          two_users
  = [Push "cA" "message-error" [("error", JString "Failed to send message")]].
Proof.
  apply (failed_write_reports_error (failing network_timeout) "cA"
           hello_from_A two_users).
  left. vm_compute. eexists. reflexivity.
Defined.

(** ** The thread key of stored messages *)

(** [POST /api/messages] files every message under the key of its parties. *)
Lemma post_messages_thread_keyed e sender recipient content type s :
  thread_keyed s →
  thread_keyed (state_after (post_messages e sender recipient content type) s).
Proof.
  intros Hs. unfold state_after, thread_keyed.
  destruct (fault e Message_create_call) as [err|] eqn:Hdb.
  - run_handler. rewrite Hdb. exact Hs.
  - destruct (decide (new_id e ∈ dom (messages s))) as [Hid|Hid].
    + run_handler. rewrite Hdb. cbn [fst snd]. rewrite decide_True by exact Hid.
      exact Hs.
    + rewrite post_messages_ok by (split; assumption).
      cbn [fst snd messages with_messages].
      apply map_Forall_insert_2; [reflexivity|exact Hs].
Qed.

Lemma thread_keyed_status (m : gmap N Message.t)
    (P : Message.t → Prop) `{!∀ x, Decision (P x)} (v : string) :
  map_Forall (λ _ x, Message.threadId x
                     = Some (threadId (Message.sender x)
                                      (Message.recipient x))) m →
  map_Forall (λ _ x, Message.threadId x
                     = Some (threadId (Message.sender x)
                                      (Message.recipient x)))
    ((λ x, if decide (P x) then Message.with_status v x else x) <$> m).
Proof.
  intros Hm i x Hx. rewrite lookup_fmap in Hx.
  destruct (m !! i) as [y|] eqn:Hy; [|done]. cbn in Hx. injection Hx as <-.
  specialize (Hm i y Hy). cbn in Hm. by destruct (decide (P y)).
Qed.

(** Every request but [send-message] keeps the store keyed by the parties. *)
Lemma handle_thread_keyed (e : env) (r : request) (s : server) :
  (∀ socket d, r ≠ SendMessage socket d) →
  thread_keyed s → thread_keyed (handle e r s).
Proof.
  intros Hr Hs.
  destruct r; try (exfalso; eapply Hr; reflexivity);
    unfold handle, thread_keyed in *; handler_cases; try exact Hs.
  - by apply thread_keyed_status.
  - apply map_Forall_insert_2; [reflexivity|exact Hs].
Qed.

(** C3 fails on the socket path: [send-message] stores the [threadId] the
    client sent. A message from A to B sent with [threadId: 'x'] is filed
    under ["x"], not under ["A-B"], and the store is no longer keyed by the
    parties. *)
Theorem send_message_files_client_threadId :
  let s := state_after (on_send_message (healthy 1 1) "cA" misfiled_from_A)
                       two_users in
  ∃ m, messages s !! 1%N = Some m
       ∧ Message.threadId m = Some "x"
       ∧ threadId (Message.sender m) (Message.recipient m) = "A-B"
       ∧ ¬ thread_keyed s.
Proof.
  cbn zeta. unfold state_after.
  rewrite on_send_message_ok
    by (apply message_persists_healthy, fresh_in_empty).
  cbn [fst snd messages with_messages two_users].
  exists (sent_message (healthy 1 1) misfiled_from_A).
  split; [apply lookup_insert_eq|]. split; [reflexivity|].
  split; [reflexivity|].
  intros Hkeyed.
  specialize (Hkeyed 1%N (sent_message (healthy 1 1) misfiled_from_A)
                     (lookup_insert_eq _ _ _)).
  vm_compute in Hkeyed. discriminate.
Qed.

(** ** The hello scenario *)

(** C5, as stated, fails: the [new-message] B receives has no [status]
    field. *)
Lemma hello_new_message_has_no_status :
  ¬ hello_scenario
      (emitted (on_send_message (healthy 1 1) "cA" hello_from_A) two_users).
Proof.
  intros [(p & Hp & _ & Hev & _ & _ & _ & Hstatus) _].
  vm_compute in Hp.
  apply elem_of_cons in Hp as [->|Hp].
  - vm_compute in Hstatus. discriminate.
  - apply list_elem_of_singleton in Hp as ->. vm_compute in Hev. discriminate.
Qed.

(** C5, amended. When the recipient has one connection [cB] open and the
    message is persisted, a [send-message] from another socket emits two
    events: to [cB] a [new-message] carrying the id, thread id, sender,
    content, type (["text"] when none was given) and creation time of the
    stored message, and no status; to the emitting socket a [message-sent]
    with the id and status ["sent"]. *)
Theorem send_message_one_connection (e : env) (s : server)
    (socket cB : string) (d : MessageData.t) :
  message_persists e s →
  connectionsFor s (MessageData.recipient d) = {[ cB ]} →
  socket ≠ cB →
  let m := sent_message e d in
  emitted (on_send_message e socket d) s
  = [Push cB "new-message" (new_message_payload m);
     Push socket "message-sent" (message_sent_payload m)]
  ∧ get "sender" (new_message_payload m) = of_field (MessageData.sender d)
  ∧ get "content" (new_message_payload m) = of_field (MessageData.content d)
  ∧ get "type" (new_message_payload m)
    = JString (Js.or_else (MessageData.type d) "text")
  ∧ has_field "status" (new_message_payload m) = false
  ∧ get "status" (message_sent_payload m) = JString "sent".
Proof.
  intros Hok Hroom Hne m. unfold emitted.
  rewrite on_send_message_ok by exact Hok. cbn [snd]. rewrite Hroom.
  replace ({[cB]} ∖ {[socket]} : gset string) with ({[cB]} : gset string).
  - unfold broadcast. rewrite elements_singleton. repeat split.
  - apply set_eq. intros x. rewrite elem_of_difference, !elem_of_singleton.
    split; [intros ->; split; [reflexivity|congruence]|intros [? _]; done].
Qed.

Lemma send_message_one_connection_witness :
  emitted (on_send_message (healthy 1 1) "cA" hello_from_A) two_users
  = [Push "cB" "new-message"
       [("id", JObjectId 1); ("threadId", JString "A-B");
        ("sender", JString "A"); ("content", JString "hello");
        ("type", JString "text"); ("createdAt", JDate 1)];
     Push "cA" "message-sent" [("id", JObjectId 1); ("status", JString "sent")]].
Proof.
  apply (send_message_one_connection (healthy 1 1) two_users "cA" "cB"
           hello_from_A).
  - split; [reflexivity|]. vm_compute. discriminate.
  - vm_compute. reflexivity.
  - discriminate.
Defined.

(** ** Fetching what was stored *)

Lemma elem_of_docs {A} (coll : gmap N A) (x : A) :
  x ∈ docs coll ↔ ∃ i, coll !! i = Some x.
Proof.
  unfold docs. rewrite list_elem_of_fmap. split.
  - intros ([i y] & -> & Hin). exists i. by apply elem_of_map_to_list.
  - intros [i Hi]. exists (i, x). split; [reflexivity|].
    by apply elem_of_map_to_list.
Qed.

Lemma elem_of_sort_oldest_first m l : m ∈ sort_oldest_first l ↔ m ∈ l.
Proof. unfold sort_oldest_first. by rewrite merge_sort_Permutation. Qed.

Lemma elem_of_sort_newest_first n l : n ∈ sort_newest_first l ↔ n ∈ l.
Proof. unfold sort_newest_first. by rewrite merge_sort_Permutation. Qed.

(** Every document of a listing is on one of its pages, whatever the page
    size. *)
Lemma on_some_page {A} (x : A) (l : list A) (limit : nat) :
  x ∈ l → ∃ offset, x ∈ skip_limit offset limit l.
Proof.
  intros Hx. apply list_elem_of_lookup in Hx as [i Hi]. exists i.
  unfold skip_limit. rewrite (drop_S l x i Hi).
  destruct (decide (limit = 0)) as [_|Hpos]; [left|].
  destruct limit as [|k]; [done|]. left.
Qed.

Lemma get_messages_ok e userId partnerId s :
  fault e Message_find_call = None →
  fault e Message_updateMany_call = None →
  result_of (get_messages e userId partnerId) s
  = Ok (Success (DataMessages
         (sort_oldest_first
            (filter (between userId partnerId) (docs (messages s)))))).
Proof.
  intros Hfind Hupd. run_handler. rewrite Hfind, Hupd. reflexivity.
Qed.

Lemma createNotification_ok e userId type title message data s :
  type ∈ Notification.type_enum →
  fault e Notification_create_call = None →
  new_id e ∉ dom (notifications s) →
  createNotification e userId type title message data s
  = (Ok (created_notification e userId type title message data),
     with_notifications
       (insert (new_id e)
          (stored_notification e userId type title message data)) s,
     broadcast (connectionsFor s (Some userId)) "new-notification"
       [("id", JObjectId (new_id e)); ("type", JString type);
        ("title", JString title); ("message", JString message);
        ("data", default_object data); ("createdAt", JDate (now e))]).
Proof.
  intros Hty Hdb Hid. run_handler.
  rewrite bool_decide_eq_true_2 by exact Hty. rewrite Hdb. cbn [fst snd app].
  rewrite decide_False by exact Hid. cbn [fst snd app].
  rewrite app_nil_r. reflexivity.
Qed.

Lemma get_notifications_ok e userId limit offset s :
  fault e Notification_find_call = None →
  fault e Notification_countDocuments_call = None →
  ∃ unreadCount,
    result_of (get_notifications e userId limit offset) s
    = Ok (Success (DataNotifications
           (skip_limit (default 0 offset) (default 50 limit)
              (sort_newest_first
                 (filter (λ n, Notification.userId n = userId)
                         (docs (notifications s)))))
           unreadCount)).
Proof.
  intros Hfind Hcount. run_handler. rewrite Hfind, Hcount.
  eexists. reflexivity.
Qed.

(** What is stored does not depend on who is connected. *)
Lemma stored_whatever_presence e socket d sender recipient content type
    (f : gmap string (gset string) → gmap string (gset string)) s :
  messages (state_after (on_send_message e socket d) (with_sids f s))
  = messages (state_after (on_send_message e socket d) s)
  ∧ messages (state_after (post_messages e sender recipient content type)
                          (with_sids f s))
    = messages (state_after (post_messages e sender recipient content type) s).
Proof. split; handler_cases; reflexivity. Qed.

Example notify_types_valid :
  Forall (λ t, t ∈ Notification.type_enum)
         ["message"; "match_request"; "match_accepted"].
Proof. repeat constructor; vm_compute; reflexivity. Qed.

(** C7. Whether the recipient is connected plays no part in persistence:
    with the database answering and the recipient connected nowhere, a chat
    message (sent over the socket or posted) and a notification are stored
    all the same, nothing is pushed to the recipient, and the record comes
    back when the recipient fetches: the message in the conversation with
    its sender, the notification on a page of the recipient's listing. The
    record of a notification is the document as it was written, that is
    with its [data] minimized: [createNotification] itself returns the
    document with [data] as given. *)
Theorem persisted_without_presence (e e' : env) (s : server)
    (recipient : string) :
  available e → available e' →
  new_id e ∉ dom (messages s) →
  new_id e ∉ dom (notifications s) →
  connectionsFor s (Some recipient) = ∅ →
  (∀ socket d sender,
     MessageData.recipient d = Some recipient →
     MessageData.sender d = Some sender →
     let h := on_send_message e socket d in
     messages (state_after h s) !! new_id e = Some (sent_message e d)
     ∧ (∀ c, pushes_to c "new-message" (emitted h s) = 0)
     ∧ ∃ l, result_of (get_messages e' recipient sender) (state_after h s)
            = Ok (Success (DataMessages l))
            ∧ sent_message e d ∈ l)
  ∧ (∀ sender content type,
       let h := post_messages e sender (Some recipient) content type in
       let m := posted_message e sender (Some recipient) content type in
       messages (state_after h s) !! new_id e = Some m
       ∧ ∃ l, result_of (get_messages e' recipient sender) (state_after h s)
              = Ok (Success (DataMessages l))
              ∧ m ∈ l)
  ∧ (∀ type title message data limit,
       type ∈ Notification.type_enum →
       let h := createNotification e recipient type title message data in
       let n := stored_notification e recipient type title message data in
       result_of h s
       = Ok (created_notification e recipient type title message data)
       ∧ emitted h s = []
       ∧ notifications (state_after h s) !! new_id e = Some n
       ∧ ∃ offset l unreadCount,
           result_of (get_notifications e' recipient limit (Some offset))
                     (state_after h s)
           = Ok (Success (DataNotifications l unreadCount))
           ∧ n ∈ l).
Proof.
  intros He He' Hmid Hnid Hroom. split; [|split].
  - intros socket d sender Hrcp Hsnd h. subst h.
    unfold state_after, emitted.
    rewrite on_send_message_ok by (split; [apply He|exact Hmid]).
    cbn [fst snd messages with_messages]. split; [apply lookup_insert_eq|].
    split.
    + intros c. rewrite Hrcp, Hroom, pushes_to_app, pushes_to_broadcast.
      rewrite pushes_to_single.
      rewrite decide_False.
      * rewrite decide_False; [reflexivity|]. intros [_ ?]; discriminate.
      * intros [Hc _]. apply elem_of_difference in Hc as [Hc _].
        by apply not_elem_of_empty in Hc.
    + eexists. split; [apply get_messages_ok; apply He'|].
      apply elem_of_sort_oldest_first, list_elem_of_filter. split.
      * right. cbn. split; assumption.
      * apply elem_of_docs. exists (new_id e).
        cbn [messages with_messages]. apply lookup_insert_eq.
  - intros sender content type h m. subst h m.
    unfold state_after.
    rewrite post_messages_ok by (split; [apply He|exact Hmid]).
    cbn [fst snd messages with_messages]. split; [apply lookup_insert_eq|].
    eexists. split; [apply get_messages_ok; apply He'|].
    apply elem_of_sort_oldest_first, list_elem_of_filter. split.
    + right. cbn. split; reflexivity.
    + apply elem_of_docs. exists (new_id e).
      cbn [messages with_messages]. apply lookup_insert_eq.
  - intros type title message data limit Hty h n. subst h n.
    unfold result_of, emitted, state_after.
    rewrite createNotification_ok by (first [exact Hty|apply He|exact Hnid]).
    cbn [fst snd notifications with_notifications].
    split; [reflexivity|]. split.
    + rewrite Hroom. reflexivity.
    + split; [apply lookup_insert_eq|].
      set (n := stored_notification e recipient type title message data).
      set (s' := with_notifications _ s).
      assert (n ∈ sort_newest_first
                    (filter (λ n, Notification.userId n = recipient)
                            (docs (notifications s')))) as Hn.
      { apply elem_of_sort_newest_first, list_elem_of_filter.
        split; [reflexivity|]. apply elem_of_docs. exists (new_id e).
        subst s'. cbn [notifications with_notifications].
        apply lookup_insert_eq. }
      destruct (on_some_page _ _ (default 50 limit) Hn) as [offset Hpage].
      destruct (get_notifications_ok e' recipient limit (Some offset) s'
                  (He' _) (He' _)) as [unread Hres].
      exists offset. eexists. exists unread. split; [exact Hres|exact Hpage].
Qed.

Lemma persisted_without_presence_witness :
  messages (state_after (on_send_message (healthy 1 1) "cA" hello_from_A)
                        only_A) !! 1%N
  = Some (sent_message (healthy 1 1) hello_from_A)
  ∧ notifications
      (state_after (createNotification (healthy 1 1) "B" "message"
                      "New Message" "A: hello" (JObject []))
                   only_A) !! 1%N
    = Some (Notification.mk 1 "B" "message" "New Message" "A: hello"
                            JUndefined false 1).
Proof.
  destruct (persisted_without_presence (healthy 1 1) (healthy 2 2) only_A "B")
    as (Hsock & _ & Hnote).
  - intros c. reflexivity.
  - intros c. reflexivity.
  - vm_compute. discriminate.
  - vm_compute. discriminate.
  - vm_compute. reflexivity.
  - split.
    + destruct (Hsock "cA" hello_from_A "A" eq_refl eq_refl) as [H _].
      exact H.
    + destruct (Hnote "message" "New Message" "A: hello" (JObject []) None)
        as (_ & _ & H & _); [|exact H].
      apply (bool_decide_unpack _). vm_compute. exact I.
Defined.

(** ** Notifications *)

Lemma with_read_true (n : Notification.t) :
  Notification.read n = true → Notification.with_read true n = n.
Proof. destruct n. cbn. by intros ->. Qed.

Lemma with_notifications_insert_id s id n :
  notifications s !! id = Some n →
  with_notifications (insert id n) s = s.
Proof.
  intros Hn. destruct s. unfold with_notifications. cbn in *.
  by rewrite insert_id.
Qed.

(** C8. Marking read a notification of the caller that is read already
    changes nothing in the server and, the database answering, is answered
    with success and the notification: no error. *)
Theorem mark_read_idempotent (e : env) (s : server) (userId : string)
    (id : N) (n : Notification.t) :
  fault e Notification_findOneAndUpdate_call = None →
  notifications s !! id = Some n →
  Notification.userId n = userId →
  Notification.read n = true →
  put_notification_read e userId id s
  = (Ok (Success (DataNotification n)), s, []).
Proof.
  intros Hdb Hn Howner Hread. run_handler. rewrite Hdb. cbn [fst snd app].
  rewrite Hn. rewrite decide_True by exact Howner. cbn [fst snd app].
  rewrite with_read_true by exact Hread.
  by rewrite with_notifications_insert_id.
Qed.

Lemma mark_read_idempotent_witness :
  put_notification_read (healthy 9 9) "B" 7 settled
  = (Ok (Success (DataNotification read_notification)), settled, []).
Proof.
  apply (mark_read_idempotent (healthy 9 9) settled "B" 7 read_notification);
    reflexivity.
Defined.

(** ** Reviews *)

(** C10. The two refusals compare the id strings, the rating is written
    under the ObjectId the string is cast to. A review Ann posts under Ann's
    own id, written in upper case, is not refused: the review is filed and
    the rating of Ann replaced by it. Bea, whose review of Ann is stored,
    reviews Ann again under that spelling: the second review is filed as
    well and the rating of Ann replaced. *)
Theorem review_guards_miss_other_spelling :
  ann_id_upper ≠ ann_id
  ∧ user_of review_board ann_id_upper = Some ann
  ∧ user_of review_board ann_id = Some ann
  ∧ (let h := post_review review_env ann_id ann_id_upper one_star None in
     let review := filed_review review_env ann ann_id ann_id_upper one_star
                                None in
     result_of h review_board = Ok (Success (DataReview review))
     ∧ reviews (state_after h review_board)
       = <[9%N := review]> (reviews review_board)
     ∧ User.rating ann = Js.of_Z 5
     ∧ users (state_after h review_board) !! ann_id
       = Some (User.with_rating (Js.of_Z 1) ann))
  ∧ (let h := post_review review_env bea_id ann_id_upper one_star None in
     let review := filed_review review_env bea bea_id ann_id_upper one_star
                                None in
     reviews review_board !! 3%N = Some review_of_ann_by_bea
     ∧ result_of h review_board = Ok (Success (DataReview review))
     ∧ reviews (state_after h review_board)
       = <[9%N := review]> (reviews review_board)
     ∧ users (state_after h review_board) !! ann_id
       = Some (User.with_rating (Js.of_Z 1) ann)).
Proof.
  split; [discriminate|]. split; [reflexivity|]. split; [reflexivity|].
  split.
  - cbn zeta. split_and!; vm_compute; reflexivity.
  - cbn zeta. split_and!; vm_compute; reflexivity.
Qed.

(** ** The read flag along a run *)

Lemma read_kept_refl (m : gmap N Notification.t) : read_kept m m.
Proof. intros id n n' H1 H2. congruence. Qed.

Lemma read_kept_insert_fresh (m : gmap N Notification.t) id n :
  id ∉ dom m → read_kept m (<[id := n]> m).
Proof.
  intros Hid i x x' Hx Hx' Hread.
  destruct (decide (id = i)) as [->|Hne].
  - exfalso. apply Hid. apply elem_of_dom. by exists x.
  - rewrite lookup_insert_ne in Hx' by exact Hne. congruence.
Qed.

Lemma read_kept_mark (m : gmap N Notification.t) id n :
  read_kept m (<[id := Notification.with_read true n]> m).
Proof.
  intros i x x' Hx Hx' Hread.
  destruct (decide (id = i)) as [->|Hne].
  - rewrite lookup_insert_eq in Hx'. by injection Hx' as <-.
  - rewrite lookup_insert_ne in Hx' by exact Hne. congruence.
Qed.

Lemma read_kept_mark_many (m : gmap N Notification.t)
    (P : Notification.t → Prop) `{!∀ n, Decision (P n)} :
  read_kept m
    ((λ n, if decide (P n) then Notification.with_read true n else n) <$> m).
Proof.
  intros i x x' Hx Hx' Hread. rewrite lookup_fmap, Hx in Hx'.
  cbn in Hx'. injection Hx' as <-. by destruct (decide (P x)).
Qed.

Lemma read_kept_delete (m : gmap N Notification.t) id :
  read_kept m (delete id m).
Proof.
  intros i x x' Hx Hx' Hread.
  destruct (decide (id = i)) as [->|Hne].
  - by rewrite lookup_delete_eq in Hx'.
  - rewrite lookup_delete_ne in Hx' by exact Hne. congruence.
Qed.

Create HintDb read_kept.

#[local] Hint Resolve read_kept_refl read_kept_insert_fresh read_kept_mark
  read_kept_mark_many read_kept_delete : read_kept.

(** One request never resets a read flag. *)
Lemma handle_read_kept (e : env) (r : request) (s : server) :
  read_kept (notifications s) (notifications (handle e r s)).
Proof.
  destruct r; unfold handle; handler_cases; auto with read_kept.
Qed.

Lemma trace_suffix (l : list (env * request)) :
  ∀ s (i : nat) si, trace s l !! i = Some si →
    ∀ k : nat, trace s l !! (i + k) = trace si (drop i l) !! k.
Proof.
  induction l as [|[e r] l IH]; intros s i si Hi k.
  - destruct i as [|i]; [|done]. cbn in Hi. by injection Hi as ->.
  - destruct i as [|i].
    + cbn in Hi. by injection Hi as ->.
    + cbn [trace] in *. rewrite lookup_cons in Hi. cbn in Hi.
      apply (IH _ _ _ Hi k).
Qed.

(** From the first state of a run on: a notification that is read and stays
    in the store up to step [j] is read at step [j]. *)
Lemma read_kept_from_start (id : N) (l : list (env * request)) :
  ∀ s (j : nat) sj n nj,
    trace s l !! j = Some sj →
    (∀ (k : nat) sk, (k ≤ j)%nat → trace s l !! k = Some sk →
                     id ∈ dom (notifications sk)) →
    notifications s !! id = Some n → Notification.read n = true →
    notifications sj !! id = Some nj → Notification.read nj = true.
Proof.
  induction l as [|[e r] l IH]; intros s j sj n nj Hj Halive Hn Hread Hnj.
  - destruct j as [|j]; [|done]. cbn in Hj. injection Hj as <-. congruence.
  - destruct j as [|j].
    + cbn in Hj. injection Hj as <-. congruence.
    + cbn [trace] in Hj. rewrite lookup_cons in Hj. cbn in Hj.
      assert (id ∈ dom (notifications (handle e r s))) as Hnext.
      { apply (Halive 1); [lia|]. cbn [trace]. rewrite lookup_cons. cbn.
        by destruct l as [|[? ?] ?]. }
      apply elem_of_dom in Hnext as [n1 Hn1].
      apply (IH (handle e r s) j sj n1 nj Hj); [|exact Hn1| |exact Hnj].
      * intros k sk Hk Hsk. apply (Halive (S k)); [lia|].
        cbn [trace]. rewrite lookup_cons. exact Hsk.
      * by apply (handle_read_kept e r s id n n1).
Qed.

(** C9. Along every run of the server, over all its requests (notifications
    created, marked read one by one or all at once, deleted, listed, and the
    chat and review requests as well), a notification that is read at one
    step and is in the store at every step up to a later one is read at that
    later step: the flag goes from false to true only. *)
Theorem read_flag_never_reset (s : server) (l : list (env * request))
    (i j : nat) (id : N) (si sj : server) (ni nj : Notification.t) :
  (i ≤ j)%nat →
  trace s l !! i = Some si →
  trace s l !! j = Some sj →
  (∀ (k : nat) sk, (i ≤ k ≤ j)%nat → trace s l !! k = Some sk →
                   id ∈ dom (notifications sk)) →
  notifications si !! id = Some ni → Notification.read ni = true →
  notifications sj !! id = Some nj → Notification.read nj = true.
Proof.
  intros Hij Hi Hj Halive Hni Hread Hnj.
  pose proof (trace_suffix l s i si Hi) as Hsuffix.
  apply (read_kept_from_start id (drop i l) si (j - i) sj ni nj);
    try assumption.
  - rewrite <- Hsuffix. by replace (i + (j - i)) with j by lia.
  - intros k sk Hk Hsk. rewrite <- Hsuffix in Hsk.
    apply (Halive (i + k)); [lia|exact Hsk].
Qed.

Lemma read_flag_never_reset_witness :
  ∃ s5 n, trace only_A notification_run !! 5 = Some s5
          ∧ notifications s5 !! 1%N = Some n
          ∧ Notification.read n = true.
Proof.
  destruct (trace only_A notification_run !! 2) as [s2|] eqn:H2;
    [|vm_compute in H2; discriminate].
  destruct (trace only_A notification_run !! 5) as [s5|] eqn:H5;
    [|vm_compute in H5; discriminate].
  destruct (notifications s2 !! 1%N) as [n2|] eqn:Hn2;
    [|vm_compute in H2; injection H2 as <-; vm_compute in Hn2; discriminate].
  destruct (notifications s5 !! 1%N) as [n5|] eqn:Hn5;
    [|vm_compute in H5; injection H5 as <-; vm_compute in Hn5; discriminate].
  exists s5, n5. split; [reflexivity|]. split; [exact Hn5|].
  apply (read_flag_never_reset only_A notification_run 2 5 1 s2 s5 n2 n5);
    try assumption.
  - lia.
  - intros k sk [Hlo Hhi] Hk.
    assert (k = 2 ∨ k = 3 ∨ k = 4 ∨ k = 5) as Hcases by lia.
    destruct Hcases as [ -> | [ -> | [ -> | -> ] ] ];
      vm_compute in Hk; injection Hk as <-;
      apply elem_of_dom; vm_compute; eexists; reflexivity.
  - vm_compute in H2. injection H2 as <-. vm_compute in Hn2.
    injection Hn2 as <-. reflexivity.
Defined.

(** * Further properties *)

(** ** Collections as lists *)

Lemma docs_fmap {A B} (f : A → B) (m : gmap N A) :
  docs (f <$> m) = f <$> docs m.
Proof.
  unfold docs. rewrite map_to_list_fmap.
  induction (map_to_list m) as [|[i x] l IH]; [reflexivity|].
  cbn. by rewrite IH.
Qed.

Lemma docs_delete {A} (m : gmap N A) i x :
  m !! i = Some x → docs m ≡ₚ x :: docs (delete i m).
Proof.
  intros Hi. unfold docs. rewrite <- (map_to_list_delete m i x Hi).
  reflexivity.
Qed.

Lemma docs_insert_fresh {A} (m : gmap N A) i x :
  m !! i = None → docs (<[i:=x]> m) ≡ₚ x :: docs m.
Proof.
  intros Hi. unfold docs. rewrite (map_to_list_insert m i x Hi). reflexivity.
Qed.

Lemma docs_insert {A} (m : gmap N A) i x :
  docs (<[i:=x]> m) ≡ₚ x :: docs (delete i m).
Proof.
  rewrite <- insert_delete_eq. apply docs_insert_fresh, lookup_delete_eq.
Qed.

Lemma length_filter_fmap {A} (P Q : A → Prop)
    `{!∀ x, Decision (P x), !∀ x, Decision (Q x)} (f : A → A) (l : list A) :
  (∀ x, P (f x) ↔ Q x) →
  length (filter P (f <$> l)) = length (filter Q l).
Proof.
  intros HPQ. induction l as [|x l IH]; [reflexivity|].
  rewrite fmap_cons, !filter_cons.
  destruct (decide (P (f x))) as [HP|HP], (decide (Q x)) as [HQ|HQ];
    cbn [length]; rewrite ?IH; try reflexivity.
  - by apply HPQ in HP.
  - by apply HPQ in HQ.
Qed.

Lemma length_filter_none {A} (P : A → Prop) `{!∀ x, Decision (P x)}
    (l : list A) :
  (∀ x, ¬ P x) → length (filter P l) = 0.
Proof.
  intros HP. induction l as [|x l IH]; [reflexivity|].
  rewrite filter_cons. by destruct (decide (P x)) as [?%HP|_].
Qed.

(** ** Notifications: counting, ownership, deletion *)

Lemma get_notifications_counts e userId limit offset s :
  fault e Notification_find_call = None →
  fault e Notification_countDocuments_call = None →
  result_of (get_notifications e userId limit offset) s
  = Ok (Success (DataNotifications
         (skip_limit (default 0 offset) (default 50 limit)
            (sort_newest_first
               (filter (λ n, Notification.userId n = userId)
                       (docs (notifications s)))))
         (unread_of s userId))).
Proof.
  intros Hfind Hcount. run_handler. rewrite Hfind, Hcount. reflexivity.
Qed.

Lemma read_all_state e userId s :
  fault e Notification_updateMany_call = None →
  notifications (state_after (put_notifications_read_all e userId) s)
  = (λ n, if decide (Notification.userId n = userId
                     ∧ Notification.read n = false)
          then Notification.with_read true n else n) <$> notifications s.
Proof. intros Hdb. run_handler. rewrite Hdb. reflexivity. Qed.

(** X1. After [PUT /api/notifications/read-all] the caller's listing
    reports no unread notification, whatever page is asked for, and the
    unread count of every other user is what it was. *)
Theorem read_all_clears_unread (e e' : env) (s : server) (userId : string)
    (limit offset : option nat) :
  fault e Notification_updateMany_call = None →
  fault e' Notification_find_call = None →
  fault e' Notification_countDocuments_call = None →
  let s' := state_after (put_notifications_read_all e userId) s in
  (∃ l, result_of (get_notifications e' userId limit offset) s'
        = Ok (Success (DataNotifications l 0)))
  ∧ ∀ other, other ≠ userId → unread_of s' other = unread_of s other.
Proof.
  intros Hupd Hfind Hcount s'. subst s'. split.
  - eexists. rewrite get_notifications_counts by assumption.
    do 3 f_equal. unfold unread_of. rewrite read_all_state by exact Hupd.
    rewrite docs_fmap.
    rewrite (length_filter_fmap _ (λ _, False)).
    + apply length_filter_none. intros _ [].
    + intros n. split; [|done]. intros [Hu Hr].
      destruct (decide (Notification.userId n = userId
                        ∧ Notification.read n = false)) as [_|Hno].
      * by destruct n.
      * apply Hno. by split.
  - intros other Hother. unfold unread_of.
    rewrite read_all_state by exact Hupd. rewrite docs_fmap.
    apply length_filter_fmap. intros n.
    destruct (decide (Notification.userId n = userId
                      ∧ Notification.read n = false)) as [[Hu _]|_];
      [|reflexivity].
    destruct n; cbn in *. split; intros [? _]; congruence.
Qed.

Lemma read_all_clears_unread_witness :
  ∃ l, result_of (get_notifications (healthy 9 9) "B" None None)
         (state_after (put_notifications_read_all (healthy 8 8) "B") inbox)
       = Ok (Success (DataNotifications l 0)).
Proof.
  apply (read_all_clears_unread (healthy 8 8) (healthy 9 9) inbox "B"
           None None); reflexivity.
Defined.

(** X2. Marking read or deleting a notification that does not exist or
    belongs to somebody else is answered 404 and changes nothing. *)
Theorem foreign_notification_not_found (e : env) (s : server)
    (userId : string) (id : N) :
  fault e Notification_findOneAndUpdate_call = None →
  fault e Notification_findOneAndDelete_call = None →
  (∀ n, notifications s !! id = Some n → Notification.userId n ≠ userId) →
  put_notification_read e userId id s
  = (Ok (Failure 404 "Notification not found"), s, [])
  ∧ delete_notification e userId id s
    = (Ok (Failure 404 "Notification not found"), s, []).
Proof.
  intros Hupd Hdel Hforeign. run_handler. rewrite Hupd, Hdel.
  cbn [fst snd app].
  destruct (notifications s !! id) as [n|] eqn:Hn; [|by split].
  rewrite !decide_False by (by apply Hforeign). by split.
Qed.

Lemma foreign_notification_not_found_witness :
  delete_notification (healthy 9 9) "A" 7 inbox
  = (Ok (Failure 404 "Notification not found"), inbox, []).
Proof.
  apply (foreign_notification_not_found (healthy 9 9) inbox "A" 7);
    try reflexivity.
  intros n Hn. vm_compute in Hn. injection Hn as <-. discriminate.
Defined.

(** X3. Deleting one's own notification removes exactly that document, and
    deleting it a second time is answered 404. *)
Theorem delete_removes_one (e e' : env) (s : server) (userId : string)
    (id : N) (n : Notification.t) :
  fault e Notification_findOneAndDelete_call = None →
  fault e' Notification_findOneAndDelete_call = None →
  notifications s !! id = Some n →
  Notification.userId n = userId →
  let s' := state_after (delete_notification e userId id) s in
  result_of (delete_notification e userId id) s
  = Ok (SuccessMessage "Notification deleted")
  ∧ notifications s' = delete id (notifications s)
  ∧ result_of (delete_notification e' userId id) s'
    = Ok (Failure 404 "Notification not found").
Proof.
  intros Hdel Hdel' Hn Howner. run_handler. rewrite Hdel. cbn [fst snd app].
  rewrite Hn. rewrite decide_True by exact Howner.
  cbn [fst snd app notifications with_notifications].
  split; [reflexivity|]. split; [reflexivity|].
  rewrite Hdel'. cbn [fst snd app notifications with_notifications].
  by rewrite lookup_delete_eq.
Qed.

Lemma delete_removes_one_witness :
  notifications (state_after (delete_notification (healthy 9 9) "B" 8) inbox)
  = delete 8%N (notifications inbox).
Proof.
  apply (delete_removes_one (healthy 9 9) (healthy 9 9) inbox "B" 8
           unread_notification); reflexivity.
Defined.

(** X4. Marking an unread notification of the caller read lowers the
    caller's unread count by exactly one and leaves the count of every
    other user alone. *)
Theorem mark_read_decrements_unread (e : env) (s : server)
    (userId : string) (id : N) (n : Notification.t) :
  fault e Notification_findOneAndUpdate_call = None →
  notifications s !! id = Some n →
  Notification.userId n = userId →
  Notification.read n = false →
  let s' := state_after (put_notification_read e userId id) s in
  unread_of s userId = S (unread_of s' userId)
  ∧ ∀ other, other ≠ userId → unread_of s' other = unread_of s other.
Proof.
  intros Hdb Hn Howner Hread s'.
  assert (notifications s'
          = <[id := Notification.with_read true n]> (notifications s)) as Hs'.
  { subst s'. run_handler. rewrite Hdb. cbn [fst snd app]. rewrite Hn.
    rewrite decide_True by exact Howner. reflexivity. }
  unfold unread_of. rewrite Hs'.
  split; [|intros other Hother];
    rewrite (docs_delete _ _ _ Hn), docs_insert, !filter_cons.
  - rewrite decide_True by (by split).
    rewrite decide_False; [reflexivity|]. destruct n; cbn. by intros [_ ?].
  - rewrite !decide_False; [reflexivity| |].
    + intros [Hu _]. apply Hother. by rewrite <- Hu, <- Howner.
    + destruct n; cbn in *. intros [Hu _]. apply Hother. congruence.
Qed.

Lemma mark_read_decrements_unread_witness :
  unread_of inbox "B"
  = S (unread_of (state_after (put_notification_read (healthy 9 9) "B" 8)
                              inbox) "B").
Proof.
  apply (mark_read_decrements_unread (healthy 9 9) inbox "B" 8
           unread_notification); reflexivity.
Defined.

(** ** Notifications: the listing and the push *)

#[global] Instance not_older_total : Total not_older.
Proof. intros a b. unfold not_older. lia. Qed.

#[global] Instance not_older_trans : Transitive not_older.
Proof. intros a b c. unfold not_older. lia. Qed.

#[global] Instance not_newer_total : Total not_newer.
Proof. intros a b. unfold not_newer. lia. Qed.

#[global] Instance not_newer_trans : Transitive not_newer.
Proof. intros a b c. unfold not_newer. lia. Qed.

Lemma skip_limit_sublist {A} (o n : nat) (l : list A) :
  skip_limit o n l `sublist_of` l.
Proof.
  unfold skip_limit. destruct (decide (n = 0)).
  - apply sublist_drop.
  - etrans; [apply sublist_take|apply sublist_drop].
Qed.

Lemma skip_limit_sorted {A} (R : relation A) (o n : nat) (l : list A) :
  StronglySorted R l → StronglySorted R (skip_limit o n l).
Proof.
  intros Hl. rewrite <- (take_drop o l) in Hl.
  apply StronglySorted_app_1_r in Hl.
  unfold skip_limit. destruct (decide (n = 0)); [exact Hl|].
  rewrite <- (take_drop n (drop o l)) in Hl.
  by apply StronglySorted_app_1_l in Hl.
Qed.

(** X5. A page of [GET /api/notifications] holds stored notifications of
    the caller only, newest first, at most [limit] of them unless the limit
    is 0; the unread count beside it counts all unread notifications of the
    caller, not those of the page. *)
Theorem notification_page (e : env) (s : server) (userId : string)
    (limit offset : option nat) :
  fault e Notification_find_call = None →
  fault e Notification_countDocuments_call = None →
  ∃ l, result_of (get_notifications e userId limit offset) s
       = Ok (Success (DataNotifications l (unread_of s userId)))
       ∧ Forall (λ n, Notification.userId n = userId
                      ∧ n ∈ docs (notifications s)) l
       ∧ StronglySorted not_older l
       ∧ (default 50 limit ≠ 0 → (length l ≤ default 50 limit)%nat).
Proof.
  intros Hfind Hcount. eexists. split; [by apply get_notifications_counts|].
  split; [|split].
  - apply Forall_forall. intros n Hn.
    apply (sublist_subseteq _ _ (skip_limit_sublist _ _ _)) in Hn.
    apply elem_of_sort_newest_first, list_elem_of_filter in Hn. exact Hn.
  - apply skip_limit_sorted. unfold sort_newest_first.
    apply StronglySorted_merge_sort; apply _.
  - intros Hlimit. unfold skip_limit. rewrite decide_False by exact Hlimit.
    rewrite length_take. lia.
Qed.

Lemma notification_page_witness :
  ∃ l, result_of (get_notifications (healthy 9 9) "B" (Some 1) None) inbox
       = Ok (Success (DataNotifications l (unread_of inbox "B")))
       ∧ (length l ≤ 1)%nat.
Proof.
  destruct (notification_page (healthy 9 9) inbox "B" (Some 1) None)
    as (l & Hres & _ & _ & Hlen); [reflexivity|reflexivity|].
  exists l. split; [exact Hres|]. apply Hlen. discriminate.
Defined.

(** X6. When [createNotification] cannot store the notification (type not
    in the enum, call rejected, [_id] taken) it throws, stores nothing and
    pushes nothing. *)
Theorem createNotification_fails_quietly (e : env) (s : server)
    (userId type title message : string) (data : jsval) :
  notification_persist_fails e s type →
  let h := createNotification e userId type title message data in
  state_after h s = s ∧ emitted h s = [] ∧ ∃ err, result_of h s = Throw err.
Proof.
  intros Hfail h. subst h. unfold notification_persist_fails in Hfail.
  run_handler.
  destruct (bool_decide (type ∈ Notification.type_enum)) eqn:Hty.
  - destruct (fault e Notification_create_call) as [err|] eqn:Hdb.
    + cbn. split_and!; [reflexivity|reflexivity|by eexists].
    + cbn [fst snd app].
      destruct (decide (new_id e ∈ dom (notifications s))) as [Hid|Hid].
      * cbn. split_and!; [reflexivity|reflexivity|by eexists].
      * exfalso. destruct Hfail as [Hno|[[? ?]|Hin]]; [|done|done].
        apply Hno. by apply bool_decide_eq_true in Hty.
  - cbn. split_and!; [reflexivity|reflexivity|by eexists].
Qed.

Lemma createNotification_fails_quietly_witness :
  emitted (createNotification (healthy 9 9) "B" "poke" "Poke" "A poked you"
             (JObject [])) inbox = [].
Proof.
  apply (createNotification_fails_quietly (healthy 9 9) inbox "B" "poke"
           "Poke" "A poked you" (JObject [])).
  left. intros H. apply (bool_decide_pack _) in H. vm_compute in H. exact H.
Defined.

(** X7. A stored notification is pushed once to every connection in its
    owner's room and to no other connection, with the same payload for
    all. *)
Theorem notification_fanout (e : env) (s : server)
    (userId type title message : string) (data : jsval) :
  type ∈ Notification.type_enum →
  fault e Notification_create_call = None →
  new_id e ∉ dom (notifications s) →
  let out := emitted (createNotification e userId type title message data) s in
  (∀ c, pushes_to c "new-notification" out
        = if decide (c ∈ connectionsFor s (Some userId)) then 1 else 0)
  ∧ Forall (λ p, event p = "new-notification"
                 ∧ payload p
                   = new_notification_payload
                       (created_notification e userId type title message
                                             data))
           out.
Proof.
  intros Hty Hdb Hid out. subst out. unfold emitted.
  rewrite createNotification_ok by assumption. cbn [snd]. split.
  - intros c. rewrite pushes_to_broadcast.
    destruct (decide (c ∈ connectionsFor s (Some userId))) as [Hc|Hc].
    + rewrite decide_True; [reflexivity|by split].
    + rewrite decide_False; [reflexivity|]. by intros [? _].
  - apply Forall_forall. intros p Hp. apply elem_of_broadcast in Hp.
    destruct Hp as (_ & Hev & Hpl). split; [exact Hev|exact Hpl].
Qed.

Lemma notification_fanout_witness :
  pushes_to "cB2" "new-notification"
    (emitted (createNotification (healthy 9 9) "B" "match_accepted"
                "Match Accepted!" "A accepted your match request"
                (JObject [("type", JString "match_accepted")])) inbox)
  = 1.
Proof.
  destruct (notification_fanout (healthy 9 9) inbox "B" "match_accepted"
              "Match Accepted!" "A accepted your match request"
              (JObject [("type", JString "match_accepted")])) as [Hcount _].
  - apply (bool_decide_unpack _). vm_compute. exact I.
  - reflexivity.
  - vm_compute. discriminate.
  - rewrite Hcount. vm_compute. reflexivity.
Defined.

(** ** Messages: failure, fetching, history *)

(** X8. When [POST /api/messages] cannot persist the message it answers
    500, stores nothing and emits nothing. *)
Theorem post_messages_fails_quietly (e : env) (s : server) (sender : string)
    (recipient content type : option string) :
  message_persist_fails e s →
  let h := post_messages e sender recipient content type in
  state_after h s = s ∧ emitted h s = []
  ∧ ∃ err, result_of h s = Ok (Failure 500 err).
Proof.
  intros Hfail h. subst h. unfold message_persist_fails in Hfail.
  run_handler.
  destruct (fault e Message_create_call) as [err|] eqn:Hdb.
  - cbn. split_and!; [reflexivity|reflexivity|by eexists].
  - destruct Hfail as [[? ?]|Hid]; [discriminate|]. cbn [fst snd app].
    rewrite decide_True by exact Hid. cbn.
    split_and!; [reflexivity|reflexivity|by eexists].
Qed.

Lemma post_messages_fails_quietly_witness :
  emitted (post_messages (failing network_timeout) "A" (Some "B")
             (Some "hello") None) two_users = [].
Proof.
  apply (post_messages_fails_quietly (failing network_timeout) two_users "A"
           (Some "B") (Some "hello") None).
  left. eexists. reflexivity.
Defined.

Lemma get_messages_state e userId partnerId s :
  fault e Message_find_call = None →
  fault e Message_updateMany_call = None →
  messages (state_after (get_messages e userId partnerId) s)
  = (λ m, if decide (Message.sender m = Some partnerId
                     ∧ Message.recipient m = Some userId
                     ∧ Message.status m = "sent")
          then Message.with_status "read" m else m) <$> messages s.
Proof. intros Hfind Hupd. run_handler. rewrite Hfind, Hupd. reflexivity. Qed.

(** X9. After a user has fetched the conversation with a partner, no
    message from the partner to the user is left with status ["sent"], and
    every message that is not from the partner to the user is stored as
    before; the messages listed in the response are the ones stored before
    the fetch, by then unmarked. *)
Theorem fetch_marks_read (e : env) (s : server) (userId partnerId : string) :
  fault e Message_find_call = None →
  fault e Message_updateMany_call = None →
  let s' := state_after (get_messages e userId partnerId) s in
  (∀ i m', messages s' !! i = Some m' →
           Message.sender m' = Some partnerId →
           Message.recipient m' = Some userId →
           Message.status m' ≠ "sent")
  ∧ (∀ i m, messages s !! i = Some m →
            ¬ (Message.sender m = Some partnerId
               ∧ Message.recipient m = Some userId) →
            messages s' !! i = Some m)
  ∧ ∃ l, result_of (get_messages e userId partnerId) s
         = Ok (Success (DataMessages l))
         ∧ Forall (λ m, m ∈ docs (messages s)) l.
Proof.
  intros Hfind Hupd s'. subst s'.
  rewrite get_messages_state by assumption. split; [|split].
  - intros i m' Hm' Hfrom Hto. rewrite lookup_fmap in Hm'.
    destruct (messages s !! i) as [m|] eqn:Hm; [|done]. cbn in Hm'.
    injection Hm' as <-.
    destruct (decide (Message.sender m = Some partnerId
                      ∧ Message.recipient m = Some userId
                      ∧ Message.status m = "sent")) as [_|Hno].
    + destruct m; cbn. discriminate.
    + intros Hsent. apply Hno. by split_and!.
  - intros i m Hm Hother. rewrite lookup_fmap, Hm. cbn.
    rewrite decide_False; [reflexivity|]. intros (? & ? & _).
    apply Hother. by split.
  - eexists. split; [by apply get_messages_ok|].
    apply Forall_forall. intros m Hm.
    apply elem_of_sort_oldest_first, list_elem_of_filter in Hm. apply Hm.
Qed.

Lemma fetch_marks_read_witness :
  ∃ m', messages (state_after (get_messages (healthy 20 20) "B" "A")
                              chat_history) !! 3%N = Some m'
        ∧ Message.status m' ≠ "sent".
Proof.
  destruct (messages (state_after (get_messages (healthy 20 20) "B" "A")
                                  chat_history) !! 3%N) as [m'|] eqn:Hm';
    [|vm_compute in Hm'; discriminate].
  exists m'. split; [reflexivity|].
  destruct (fetch_marks_read (healthy 20 20) chat_history "B" "A")
    as (Hread & _); [reflexivity|reflexivity|].
  apply (Hread 3%N m' Hm');
    vm_compute in Hm'; injection Hm' as <-; reflexivity.
Defined.

(** X10. Both parties are shown the same conversation: whoever of the two
    fetches, the response lists exactly the stored messages between the two,
    oldest first. The two lists hold the same messages, and are the same
    list when no two messages of the conversation were created at the same
    time (the order among messages of one time is the database's choice). *)
Theorem thread_same_for_both (e e' : env) (s : server)
    (userId partnerId : string) :
  available e → available e' →
  ∃ l l', result_of (get_messages e userId partnerId) s
          = Ok (Success (DataMessages l))
          ∧ result_of (get_messages e' partnerId userId) s
            = Ok (Success (DataMessages l'))
          ∧ l ≡ₚ l'
          ∧ StronglySorted not_newer l
          ∧ StronglySorted not_newer l'
          ∧ (∀ m, m ∈ l ↔ m ∈ docs (messages s) ∧ between userId partnerId m)
          ∧ ((∀ m m', m ∈ l → m' ∈ l →
                Message.createdAt m = Message.createdAt m' → m = m') →
             l = l').
Proof.
  intros He He'. eexists. eexists.
  split; [apply get_messages_ok; apply He|].
  split; [apply get_messages_ok; apply He'|].
  set (found := filter (between userId partnerId) (docs (messages s))).
  set (found' := filter (between partnerId userId) (docs (messages s))).
  assert (found = found') as Hsame.
  { apply list_filter_iff. intros m. unfold between. tauto. }
  assert (sort_oldest_first found ≡ₚ sort_oldest_first found') as Hperm.
  { unfold sort_oldest_first. rewrite !merge_sort_Permutation.
    by rewrite Hsame. }
  assert (∀ l, StronglySorted not_newer (sort_oldest_first l)) as Hsorted.
  { intros l. unfold sort_oldest_first.
    apply StronglySorted_merge_sort; apply _. }
  split_and!; [exact Hperm|apply Hsorted|apply Hsorted| |].
  - intros m. subst found.
    rewrite elem_of_sort_oldest_first, list_elem_of_filter. tauto.
  - intros Hdistinct.
    apply (StronglySorted_unique_strong not_newer);
      [|apply Hsorted|apply Hsorted|exact Hperm].
    intros m m' Hm Hm' Hle Hge. rewrite <- Hperm in Hm'.
    apply Hdistinct; [exact Hm|exact Hm'|].
    unfold not_newer in Hle, Hge. lia.
Qed.

Lemma thread_same_for_both_witness :
  ∃ l l', result_of (get_messages (healthy 20 20) "A" "B") chat_history
          = Ok (Success (DataMessages l))
          ∧ result_of (get_messages (healthy 21 21) "B" "A") chat_history
            = Ok (Success (DataMessages l'))
          ∧ l ≡ₚ l'.
Proof.
  destruct (thread_same_for_both (healthy 20 20) (healthy 21 21) chat_history
              "A" "B") as (l & l' & H1 & H2 & Hperm & _).
  - intros c. reflexivity.
  - intros c. reflexivity.
  - exists l, l'. split; [exact H1|]. split; [exact H2|exact Hperm].
Defined.

(** One request keeps every stored message, changes nothing of it but the
    status, and moves the status from ["sent"] to ["read"] at most. *)
Lemma handle_keeps_messages (e : env) (r : request) (s : server) i m :
  messages s !! i = Some m →
  ∃ m', messages (handle e r s) !! i = Some m'
        ∧ same_letter m m' ∧ status_moved m m'.
Proof.
  intros Hm.
  assert (∃ m', Some m = Some m' ∧ same_letter m m' ∧ status_moved m m')
    as Hsame by (exists m; unfold same_letter, status_moved; tauto).
  destruct r; unfold handle; handler_cases; rewrite ?Hm; try exact Hsame.
  - rewrite lookup_insert_ne; [by rewrite Hm|].
    intros <-. match goal with H : _ ∉ dom _ |- _ => apply H end.
    apply elem_of_dom. by exists m.
  - rewrite lookup_fmap, Hm. cbn. eexists. split; [reflexivity|].
    destruct (decide _) as [(_ & _ & Hsent)|_].
    + destruct m; cbn in *. unfold same_letter, status_moved. cbn. tauto.
    + unfold same_letter, status_moved. tauto.
  - rewrite lookup_insert_ne; [by rewrite Hm|].
    intros <-. match goal with H : _ ∉ dom _ |- _ => apply H end.
    apply elem_of_dom. by exists m.
Qed.

(** X11. Along every run of the server a stored message is never removed
    and never rewritten: at every later step it is stored under the same
    [_id] with the same thread, parties, content, type and creation time,
    and its status is the one it had or has gone from ["sent"] to
    ["read"]. *)
Theorem message_history_kept (l : list (env * request)) :
  ∀ (s : server) (j : nat) (sj : server) (i : N) (m : Message.t),
    trace s l !! j = Some sj →
    messages s !! i = Some m →
    ∃ m', messages sj !! i = Some m'
          ∧ same_letter m m' ∧ status_moved m m'.
Proof.
  induction l as [|[e r] l IH]; intros s j sj i m Hj Hm.
  - destruct j as [|j]; [|done]. cbn in Hj. injection Hj as <-.
    exists m. unfold same_letter, status_moved. tauto.
  - destruct j as [|j].
    + cbn in Hj. injection Hj as <-.
      exists m. unfold same_letter, status_moved. tauto.
    + cbn [trace] in Hj. rewrite lookup_cons in Hj. cbn in Hj.
      destruct (handle_keeps_messages e r s i m Hm)
        as (m1 & Hm1 & Hsame1 & Hmove1).
      destruct (IH _ _ _ _ _ Hj Hm1) as (m2 & Hm2 & Hsame2 & Hmove2).
      exists m2. split; [exact Hm2|].
      unfold same_letter, status_moved in *.
      destruct Hsame1 as (?&?&?&?&?&?&?), Hsame2 as (?&?&?&?&?&?&?).
      split; [split_and!; congruence|].
      destruct Hmove1 as [?|[? ?]], Hmove2 as [?|[? ?]];
        [left; congruence|right; split; congruence..].
Qed.

Lemma message_history_kept_witness :
  ∃ m', messages (handle (healthy 20 20) (GetMessages "B" "A") chat_history)
          !! 1%N = Some m'
        ∧ Message.content m' = Some "hello".
Proof.
  destruct (message_history_kept [(healthy 20 20, GetMessages "B" "A")]
              chat_history 1
              (handle (healthy 20 20) (GetMessages "B" "A") chat_history)
              1%N
              (Message.mk 1 (Some "A-B") (Some "A") (Some "B") (Some "hello")
                          "text" "sent" 10))
    as (m' & Hm' & Hsame & _); [reflexivity|reflexivity|].
  exists m'. split; [exact Hm'|]. by destruct Hsame as (_&_&_&_&->&_).
Defined.

(** ** The conversation list *)

#[global] Instance not_older_message_total : Total not_older_message.
Proof. intros a b. unfold not_older_message. lia. Qed.

#[global] Instance not_older_message_trans : Transitive not_older_message.
Proof. intros a b c. unfold not_older_message. lia. Qed.

Lemma head_filter_split {A} (P : A → Prop) `{!∀ x, Decision (P x)}
    (l : list A) (x : A) :
  head (filter P l) = Some x →
  ∃ l1 l2, l = l1 ++ x :: l2 ∧ P x ∧ Forall (λ y, ¬ P y) l1.
Proof.
  induction l as [|y l IH]; [done|]. rewrite filter_cons.
  destruct (decide (P y)) as [Hy|Hy].
  - cbn. intros [= ->]. exists [], l. split_and!; [done|done|constructor].
  - intros Hx. destruct (IH Hx) as (l1 & l2 & -> & HP & Hl1).
    exists (y :: l1), l2. split_and!; [done|done|by constructor].
Qed.

Lemma filter_none_of {A} (P : A → Prop) `{!∀ x, Decision (P x)}
    (l : list A) :
  (∀ x, x ∈ l → ¬ P x) → filter P l = [].
Proof.
  induction l as [|y l IH]; intros Hno; [reflexivity|].
  rewrite filter_cons, decide_False by (apply Hno; left).
  apply IH. intros x Hx. apply Hno. by right.
Qed.

Lemma partners_increment p l :
  partners (conversations_increment p l) = partners l.
Proof.
  unfold partners, conversations_increment. rewrite <- list_fmap_compose.
  apply list_fmap_ext. intros i c _. cbn. by destruct (decide _).
Qed.

Lemma length_filter_snoc {A} (P : A → Prop) `{!∀ x, Decision (P x)}
    (l : list A) (x : A) :
  length (filter P (l ++ [x]))
  = (length (filter P l) + (if decide (P x) then 1 else 0))%nat.
Proof.
  rewrite filter_app, length_app, filter_cons, filter_nil.
  by destruct (decide (P x)).
Qed.

(** The map after [has]/[set], before the counter moves. *)
Lemma group_message_set userId pre conversations m :
  grouped userId pre conversations →
  let p := partner_of userId m in
  let convs1 := if conversations_has p conversations then conversations
                else conversations ++ [Conversation.mk p m 0] in
  NoDup (partners convs1)
  ∧ (∀ x, x ∈ pre ++ [m] → partner_of userId x ∈ partners convs1)
  ∧ Forall (λ c,
      head (filter (λ x, partner_of userId x = Conversation.partnerId c)
                   (pre ++ [m]))
      = Some (Conversation.lastMessage c)
      ∧ Conversation.unreadCount c
        = length (filter (unread_from userId (Conversation.partnerId c)) pre))
      convs1.
Proof.
  intros (Hnodup & Hcover & Htally) p convs1.
  assert (Forall (λ c,
      head (filter (λ x, partner_of userId x = Conversation.partnerId c)
                   (pre ++ [m]))
      = Some (Conversation.lastMessage c)
      ∧ Conversation.unreadCount c
        = length (filter (unread_from userId (Conversation.partnerId c)) pre))
      conversations) as Hold.
  { eapply Forall_impl; [exact Htally|]. intros c [Hhead Hcount].
    split; [|exact Hcount]. rewrite filter_app, head_app. by rewrite Hhead. }
  subst convs1. unfold conversations_has.
  destruct (bool_decide (p ∈ Conversation.partnerId <$> conversations))
    eqn:Hhas.
  - apply bool_decide_eq_true in Hhas. split_and!; [done| |done].
    intros x [Hx|Hx]%elem_of_app; [by apply Hcover|].
    apply list_elem_of_singleton in Hx as ->. exact Hhas.
  - apply bool_decide_eq_false in Hhas.
    assert (∀ x, x ∈ pre → partner_of userId x ≠ p) as Hnone.
    { intros x Hx Heq. apply Hhas. rewrite <- Heq. by apply Hcover. }
    unfold partners. rewrite fmap_app. cbn. split_and!.
    + apply NoDup_app. split_and!; [exact Hnodup| |apply NoDup_singleton].
      intros q Hq Hq'. apply list_elem_of_singleton in Hq' as ->.
      by apply Hhas.
    + intros x [Hx|Hx]%elem_of_app; apply elem_of_app.
      * left. by apply Hcover.
      * right. apply list_elem_of_singleton in Hx as ->.
        by apply list_elem_of_singleton.
    + apply Forall_app. split; [exact Hold|].
      constructor; [|constructor]. cbn. split.
      * rewrite filter_app, head_app.
        rewrite (filter_none_of _ pre) by exact Hnone.
        rewrite filter_cons. by rewrite decide_True.
      * rewrite (filter_none_of _ pre); [reflexivity|].
        intros x Hx [Hpx _]. by apply (Hnone x Hx).
Qed.

(** One turn of [forEach] keeps the map a summary of the messages seen. *)
Lemma group_message_step userId pre conversations m :
  grouped userId pre conversations →
  grouped userId (pre ++ [m]) (group_message userId conversations m).
Proof.
  intros Hgrouped.
  destruct (group_message_set userId pre conversations m Hgrouped)
    as (Hnodup & Hcover & Htally).
  unfold group_message.
  set (p := partner_of userId m) in *.
  set (convs1 := if conversations_has p conversations then conversations
                 else conversations ++ [Conversation.mk p m 0]) in *.
  destruct (decide (Message.recipient m = Some userId
                    ∧ Message.status m ≠ "read")) as [Hunread|Hread].
  - split_and!.
    + by rewrite partners_increment.
    + intros x Hx. rewrite partners_increment. by apply Hcover.
    + unfold conversations_increment. apply Forall_fmap.
      eapply Forall_impl; [exact Htally|]. intros c [Hhead Hcount].
      unfold tallies. cbn.
      destruct (decide (Conversation.partnerId c = p)) as [Hc|Hc]; cbn;
        (split; [exact Hhead|]); rewrite length_filter_snoc, <- Hcount.
      * rewrite decide_True; [lia|]. unfold unread_from. by split.
      * rewrite decide_False; [lia|]. intros [? _]. by apply Hc.
  - split_and!; [exact Hnodup|exact Hcover|].
    eapply Forall_impl; [exact Htally|]. intros c [Hhead Hcount].
    split; [exact Hhead|]. rewrite length_filter_snoc, <- Hcount.
    rewrite decide_False; [lia|]. intros (_ & ? & ?). by apply Hread.
Qed.

Lemma foldl_group_message userId (l : list Message.t) :
  grouped userId l (foldl (group_message userId) [] l).
Proof.
  induction l as [|m l IH] using rev_ind.
  - split_and!; [constructor|by intros m ?%elem_of_nil|constructor].
  - rewrite foldl_snoc. by apply group_message_step.
Qed.

Lemma get_conversations_ok e userId s :
  fault e Message_find_call = None →
  result_of (get_conversations e userId) s
  = Ok (Conversations
          (foldl (group_message userId) []
             (sort_newest_message_first
                (filter (involves userId) (docs (messages s)))))).
Proof.
  intros Hdb. unfold get_conversations. run_handler. rewrite Hdb.
  reflexivity.
Qed.

(** X12. [GET /api/messages] answers with one entry per conversation
    partner; every stored message of the user falls under one of the
    entries; and each entry shows the newest stored message with that
    partner and counts the stored messages from that partner to the user
    that are not read. *)
Theorem conversations_summary (e : env) (s : server) (userId : string) :
  fault e Message_find_call = None →
  ∃ conversations,
    result_of (get_conversations e userId) s = Ok (Conversations conversations)
    ∧ NoDup (partners conversations)
    ∧ (∀ m, m ∈ docs (messages s) → involves userId m →
            partner_of userId m ∈ partners conversations)
    ∧ Forall (summarises s userId) conversations.
Proof.
  intros Hdb. eexists. split; [by apply get_conversations_ok|].
  set (l := sort_newest_message_first
              (filter (involves userId) (docs (messages s)))).
  assert (∀ m, m ∈ l ↔ m ∈ docs (messages s) ∧ involves userId m) as Hl.
  { intros m. subst l. unfold sort_newest_message_first.
    rewrite merge_sort_Permutation, list_elem_of_filter. tauto. }
  assert (StronglySorted not_older_message l) as Hsorted.
  { subst l. unfold sort_newest_message_first.
    apply StronglySorted_merge_sort; apply _. }
  destruct (foldl_group_message userId l) as (Hnodup & Hcover & Htally).
  split; [exact Hnodup|]. split.
  - intros m Hm Hinv. apply Hcover, Hl. by split.
  - eapply Forall_impl; [exact Htally|]. intros c [Hhead Hcount].
    destruct (head_filter_split _ _ _ Hhead) as (l1 & l2 & Hsplit & Hp & Hl1).
    assert (Conversation.lastMessage c ∈ l) as Hin.
    { rewrite Hsplit. apply elem_of_app. right. left. }
    apply Hl in Hin as [Hstored Hinv].
    unfold summarises. split_and!; [exact Hstored|exact Hinv|exact Hp| |].
    + intros m Hm Hminv Hmp.
      assert (m ∈ l) as Hml by (apply Hl; by split).
      rewrite Hsplit in Hml, Hsorted.
      apply StronglySorted_app_1_r, StronglySorted_cons in Hsorted
        as [Hnewest _].
      apply elem_of_app in Hml as [Hml|Hml].
      { rewrite Forall_forall in Hl1. by destruct (Hl1 m Hml). }
      apply elem_of_cons in Hml as [->|Hml]; [reflexivity|].
      rewrite Forall_forall in Hnewest. exact (Hnewest m Hml).
    + rewrite Hcount. subst l. unfold sort_newest_message_first.
      rewrite merge_sort_Permutation.
      rewrite list_filter_filter_l; [reflexivity|].
      intros m (_ & Hto & _). by right.
Qed.

Lemma conversations_summary_witness :
  ∃ conversations,
    result_of (get_conversations (healthy 20 20) "B") chat_history
    = Ok (Conversations conversations)
    ∧ NoDup (partners conversations).
Proof.
  destruct (conversations_summary (healthy 20 20) chat_history "B")
    as (conversations & Hres & Hnodup & _); [reflexivity|].
  by exists conversations.
Defined.

Example conversations_of_B :
  (λ c, (Conversation.partnerId c, Message._id (Conversation.lastMessage c),
         Conversation.unreadCount c))
  <$> match result_of (get_conversations (healthy 20 20) "B") chat_history
      with
      | Ok (Conversations l) => l
      | _ => []
      end
  = [(Some "C", 4%N, 1); (Some "A", 3%N, 2)].
Proof. vm_compute. reflexivity. Qed.

Lemma get_messages_statuses_known e userId partnerId s :
  fault e Message_find_call = None →
  fault e Message_updateMany_call = None →
  statuses_known s →
  statuses_known (state_after (get_messages e userId partnerId) s).
Proof.
  intros Hfind Hupd Hs. unfold statuses_known.
  rewrite get_messages_state by assumption.
  intros i m' Hm'. rewrite lookup_fmap in Hm'.
  destruct (messages s !! i) as [m|] eqn:Hm; [|done]. cbn in Hm'.
  injection Hm' as <-. specialize (Hs i m Hm). cbn in Hs.
  destruct (decide _); [right; by destruct m|exact Hs].
Qed.

(** X13. Once a user has fetched the conversation with a partner, the
    conversation list shows no unread message for that partner, provided
    every stored status is ["sent"] or ["read"], as the statuses this
    server writes are. *)
Theorem fetch_then_no_unread (e e' : env) (s : server)
    (userId partnerId : string) :
  fault e Message_find_call = None →
  fault e Message_updateMany_call = None →
  fault e' Message_find_call = None →
  statuses_known s →
  ∃ conversations,
    result_of (get_conversations e' userId)
              (state_after (get_messages e userId partnerId) s)
    = Ok (Conversations conversations)
    ∧ Forall (λ c, Conversation.partnerId c = Some partnerId →
                   Conversation.unreadCount c = 0) conversations.
Proof.
  intros Hfind Hupd Hfind' Hknown.
  set (s' := state_after (get_messages e userId partnerId) s).
  pose proof (get_messages_statuses_known e userId partnerId s Hfind Hupd
                Hknown) as Hknown'. fold s' in Hknown'.
  assert (∀ i m', messages s' !! i = Some m' →
                  Message.sender m' = Some partnerId →
                  Message.recipient m' = Some userId →
                  Message.status m' = "read") as Hread.
  { intros i m' Hm' Hfrom Hto. destruct (Hknown' i m' Hm') as [Hsent|?];
      [exfalso|done].
    subst s'. rewrite get_messages_state in Hm' by assumption.
    rewrite lookup_fmap in Hm'.
    destruct (messages s !! i) as [m|] eqn:Hm; [|done]. cbn in Hm'.
    injection Hm' as <-.
    destruct (decide (Message.sender m = Some partnerId
                      ∧ Message.recipient m = Some userId
                      ∧ Message.status m = "sent")) as [_|Hno].
    - by destruct m.
    - apply Hno. by split_and!. }
  destruct (foldl_group_message userId
              (sort_newest_message_first
                 (filter (involves userId) (docs (messages s')))))
    as (_ & _ & Htally).
  eexists. split; [by apply get_conversations_ok|].
  eapply Forall_impl; [exact Htally|]. intros c [_ Hcount] Hpartner.
  rewrite Hcount. rewrite filter_none_of; [reflexivity|].
  intros m Hm (Hp & Hto & Hunread). apply Hunread.
  unfold sort_newest_message_first in Hm.
  rewrite merge_sort_Permutation in Hm.
  apply list_elem_of_filter in Hm as [_ Hm].
  apply elem_of_docs in Hm as [i Hm]. apply (Hread i m Hm); [|exact Hto].
  rewrite Hpartner in Hp. unfold partner_of in Hp.
  destruct (decide (Message.sender m = Some userId)) as [Hself|_];
    [congruence|exact Hp].
Qed.

Lemma fetch_then_no_unread_witness :
  ∃ conversations,
    result_of (get_conversations (healthy 21 21) "B")
              (state_after (get_messages (healthy 20 20) "B" "A")
                           chat_history)
    = Ok (Conversations conversations)
    ∧ Forall (λ c, Conversation.partnerId c = Some "A" →
                   Conversation.unreadCount c = 0) conversations.
Proof.
  apply (fetch_then_no_unread (healthy 20 20) (healthy 21 21) chat_history
           "B" "A"); try reflexivity.
  intros i m Hm.
  assert (i = 1 ∨ i = 2 ∨ i = 3 ∨ i = 4 ∨ (i ≠ 1 ∧ i ≠ 2 ∧ i ≠ 3 ∧ i ≠ 4))%N
    as Hi by lia.
  destruct Hi as [ -> | [ -> | [ -> | [ -> | (?&?&?&?) ] ] ] ].
  - vm_compute in Hm. injection Hm as <-. by left.
  - vm_compute in Hm. injection Hm as <-. by right.
  - vm_compute in Hm. injection Hm as <-. by left.
  - vm_compute in Hm. injection Hm as <-. by left.
  - unfold chat_history in Hm. cbn [messages] in Hm.
    rewrite !lookup_insert_ne in Hm by done.
    by rewrite lookup_singleton_ne in Hm.
Defined.

(** ** Joining a room *)

Lemma elem_of_room_members (a : gmap string (gset string)) (room c : string) :
  c ∈ room_members a room ↔ ∃ rooms, a !! c = Some rooms ∧ room ∈ rooms.
Proof.
  unfold room_members. rewrite elem_of_dom. unfold is_Some.
  setoid_rewrite map_lookup_filter_Some. cbn. naive_solver.
Qed.

Lemma user_room_inj (a b : string) :
  user_room (Some a) = user_room (Some b) → a = b.
Proof.
  unfold user_room, Js.template. simpl. intros H. by injection H.
Qed.

(** X14. [join-user] puts the connection into the room of the user it
    names, whoever that is, and takes it out of no room: afterwards the
    user's live connections are the former ones and this one, those of every
    other user are unchanged, and a chat message another socket sends to
    that user reaches the connection exactly once. *)
Theorem join_user_joins (s : server) (socket a : string) :
  socket ∈ dom (sids s) →
  let s' := state_after (on_join_user socket (Some a)) s in
  (∀ b, connectionsFor s' (Some b)
        = connectionsFor s (Some b)
          ∪ (if decide (a = b) then {[ socket ]} else ∅))
  ∧ ∀ e sender d,
      message_persists e s → sender ≠ socket →
      MessageData.recipient d = Some a →
      pushes_to socket "new-message" (emitted (on_send_message e sender d) s')
      = 1.
Proof.
  intros Hconn s'.
  assert (sids s' = alter (λ rooms, rooms ∪ {[user_room (Some a)]}) socket
                          (sids s)) as Hsids by reflexivity.
  assert (∀ b, connectionsFor s' (Some b)
               = connectionsFor s (Some b)
                 ∪ (if decide (a = b) then {[ socket ]} else ∅)) as Hrooms.
  { intros b. unfold connectionsFor. rewrite Hsids. apply set_eq. intros c.
    rewrite elem_of_union, !elem_of_room_members.
    apply elem_of_dom in Hconn as [rooms0 Hrooms0]. split.
    - intros (rooms & Hc & Hin). rewrite lookup_alter in Hc.
      destruct (decide (socket = c)) as [->|Hne].
      + rewrite Hrooms0 in Hc. cbn in Hc. injection Hc as <-.
        apply elem_of_union in Hin as [Hin|Hin]; [left; by exists rooms0|].
        apply elem_of_singleton, user_room_inj in Hin as <-. right.
        rewrite decide_True by done. by apply elem_of_singleton.
      + left. by exists rooms.
    - intros [(rooms & Hc & Hin)|Hc].
      + destruct (decide (socket = c)) as [->|Hne].
        * exists (rooms ∪ {[user_room (Some a)]}). rewrite lookup_alter.
          rewrite decide_True by done. rewrite Hc. cbn.
          split; [reflexivity|]. apply elem_of_union. by left.
        * exists rooms. rewrite lookup_alter, decide_False by done.
          by split.
      + destruct (decide (a = b)) as [->|_];
          [|by apply not_elem_of_empty in Hc].
        apply elem_of_singleton in Hc as ->.
        exists (rooms0 ∪ {[user_room (Some b)]}). rewrite lookup_alter.
        rewrite decide_True by done. rewrite Hrooms0. cbn.
        split; [reflexivity|]. apply elem_of_union. right.
        by apply elem_of_singleton. }
  split; [exact Hrooms|].
  intros e sender d Hok Hne Hrcp. unfold emitted.
  rewrite on_send_message_ok by exact Hok. cbn [snd].
  rewrite pushes_to_app, pushes_to_broadcast, pushes_to_single.
  rewrite Hrcp, Hrooms. rewrite (decide_True (P := a = a)) by done.
  rewrite decide_True.
  - rewrite decide_False; [reflexivity|]. by intros [? _].
  - split; [|reflexivity]. apply elem_of_difference. split.
    + apply elem_of_union. right. by apply elem_of_singleton.
    + intros Hs. apply elem_of_singleton in Hs. by apply Hne.
Qed.

Lemma join_user_joins_witness :
  connectionsFor (state_after (on_join_user "cA" (Some "B")) two_users)
                 (Some "B")
  = connectionsFor two_users (Some "B") ∪ {[ "cA" ]}.
Proof.
  destruct (join_user_joins two_users "cA" "B") as [Hrooms _].
  - apply (bool_decide_unpack _). vm_compute. exact I.
  - rewrite (Hrooms "B"). reflexivity.
Defined.

(** ** Reviews: acceptance, refusals, partial failure *)

Lemma findOne_none {A} (P : A → Prop) `{!∀ x, Decision (P x)}
    (m : gmap N A) :
  (∀ i x, m !! i = Some x → ¬ P x) → head (filter P (docs m)) = None.
Proof.
  intros Hno. rewrite filter_none_of; [reflexivity|].
  intros x Hx. apply elem_of_docs in Hx as [i Hi]. by apply (Hno i).
Qed.

Lemma findOne_some {A} (P : A → Prop) `{!∀ x, Decision (P x)}
    (m : gmap N A) i x :
  m !! i = Some x → P x → is_Some (head (filter P (docs m))).
Proof.
  intros Hi HP. apply head_is_Some. intros Hnil.
  assert (x ∈ filter P (docs m)) as Hin.
  { apply list_elem_of_filter. split; [exact HP|].
    apply elem_of_docs. by exists i. }
  rewrite Hnil in Hin. by apply elem_of_nil in Hin.
Qed.

(** How far the handler gets when the review is admissible: the review is
    filed, and the rest runs on the store that holds it. *)
Lemma post_review_files e s reviewerId userId rating comment reviewer :
  review_admissible e s reviewerId userId rating reviewer →
  let review := filed_review e reviewer reviewerId userId rating comment in
  let s1 := with_reviews (insert (new_id e) review) s in
  let mean := averageRating (reviews_of userId (reviews s1)) in
  post_review e reviewerId userId rating comment s
  = match fault e Review_find_call with
    | Some err => (Ok (Failure 500 (message err)), s1, [])
    | None =>
        match ObjectId.cast userId with
        | None =>
            (Ok (Failure 500 (message (cast_error "ObjectId" "_id"))), s1, [])
        | Some _id =>
            if Js.isNaN mean
            then (Ok (Failure 500 (message (cast_error "Number" "rating"))),
                  s1, [])
            else
              match fault e User_findByIdAndUpdate_call with
              | Some err => (Ok (Failure 500 (message err)), s1, [])
              | None =>
                  (Ok (Success (DataReview review)),
                   with_users (alter (User.with_rating mean) _id) s1, [])
              end
        end
    end.
Proof.
  intros (Hne & Hnew & Hrev & [stored Hrat] & Hid & Hf1 & Hf2 & Hf3)
         review s1 mean.
  subst review s1 mean. unfold filed_review, reviews_of. rewrite Hrat.
  unfold user_of in Hrev.
  destruct (ObjectId.cast reviewerId) as [rid|] eqn:Hrid; [|done].
  cbn [mbind option_bind] in Hrev. cbn [default].
  run_handler.
  rewrite decide_False by exact Hne. rewrite Hf1. cbn [fst snd app].
  rewrite findOne_none by exact Hnew. cbn [fst snd app].
  rewrite Hrid, Hf2. cbn [fst snd app]. rewrite Hrev, Hrat, Hf3.
  cbn [fst snd app]. rewrite decide_False by exact Hid.
  cbn [fst snd app reviews with_reviews].
  destruct (fault e Review_find_call) as [err|]; [reflexivity|].
  cbn [fst snd app reviews with_reviews].
  destruct (ObjectId.cast userId) as [_id|]; [|reflexivity].
  destruct (Js.isNaN _); [reflexivity|].
  destruct (fault e User_findByIdAndUpdate_call) as [err|]; reflexivity.
Qed.

Lemma post_review_existing e s reviewerId userId rating comment i r :
  userId ≠ reviewerId →
  fault e Review_findOne_call = None →
  reviews s !! i = Some r →
  Review.userId r = userId → Review.reviewerId r = reviewerId →
  post_review e reviewerId userId rating comment s
  = (Ok (Failure 400 "You have already reviewed this user"), s, []).
Proof.
  intros Hne Hdb Hi Hu Hr. run_handler.
  rewrite decide_False by exact Hne. rewrite Hdb. cbn [fst snd app].
  destruct (findOne_some (λ r, Review.userId r = userId
                               ∧ Review.reviewerId r = reviewerId)
              (reviews s) i r Hi (conj Hu Hr)) as [r' ->].
  reflexivity.
Qed.

(** A sum that has met [undefined] is [NaN], and so is the mean. *)
Lemma sum_ratings_NaN (l : list Review.t) (acc : Js.number) :
  acc = Js.NaN ∨ (∃ r, r ∈ l ∧ Review.rating r = Js.NoNumber) →
  foldl (λ sum r, Js.add sum (Js.to_number (Review.rating r))) acc l
  = Js.NaN.
Proof.
  revert acc. induction l as [|r l IH]; intros acc [Hacc|(r' & Hin & Hr')].
  - exact Hacc.
  - by apply elem_of_nil in Hin.
  - cbn [foldl]. apply IH. left. rewrite Hacc. reflexivity.
  - cbn [foldl]. apply IH. apply elem_of_cons in Hin as [<-|Hin].
    + left. rewrite Hr'. by destruct acc.
    + right. by exists r'.
Qed.

Lemma averageRating_NaN (l : list Review.t) :
  (∃ r, r ∈ l ∧ Review.rating r = Js.NoNumber) →
  Js.isNaN (averageRating l) = true.
Proof.
  intros Hl. unfold averageRating. rewrite sum_ratings_NaN by (by right).
  reflexivity.
Qed.

(** The division rounds: three reviews of 5, 4 and 5 stars have the mean
    4.666666666666667, which is 5254199565265579 / 2^50. *)
Example averageRating_rounds :
  averageRating [rated 5; rated 4; rated 5]
  = S754_finite false 5254199565265579 (-50).
Proof. vm_compute. reflexivity. Qed.

Lemma review_admissible_example :
  review_admissible review_env review_board cy_id ann_id four_stars cy.
Proof.
  split_and!; try reflexivity.
  - discriminate.
  - intros i r Hi [_ Hr]. unfold review_board in Hi. cbn [reviews] in Hi.
    destruct (decide (i = 3%N)) as [->|Hne].
    + rewrite lookup_singleton_eq in Hi. injection Hi as <-. discriminate.
    + by rewrite lookup_singleton_ne in Hi.
  - by eexists.
  - vm_compute. discriminate.
Defined.



(** X16. Under one [userId] string a reviewer reviews once: after an
    admissible review has been filed (even when the handler then failed to
    update the rating), another review by the same reviewer under the same
    [userId] string is answered 400 and changes nothing. *)
Theorem review_only_once (e e' : env) (s : server)
    (reviewerId userId : string) (rating rating' : rating_input)
    (comment comment' : option string) (reviewer : User.t) :
  review_admissible e s reviewerId userId rating reviewer →
  fault e' Review_findOne_call = None →
  let s' := state_after (post_review e reviewerId userId rating comment) s in
  post_review e' reviewerId userId rating' comment' s'
  = (Ok (Failure 400 "You have already reviewed this user"), s', []).
Proof.
  intros Hadm Hdb s'.
  assert (reviews s' !! new_id e
          = Some (filed_review e reviewer reviewerId userId rating comment))
    as Hfiled.
  { subst s'. unfold state_after.
    rewrite (post_review_files e s reviewerId userId rating comment reviewer)
      by exact Hadm.
    destruct (fault e Review_find_call);
      [|destruct (ObjectId.cast userId);
        [destruct (Js.isNaN _);
         [|destruct (fault e User_findByIdAndUpdate_call)]|]];
      cbn [fst snd reviews with_users with_reviews]; apply lookup_insert_eq. }
  destruct Hadm as (Hne & _).
  by apply (post_review_existing e' s' reviewerId userId rating' comment'
              (new_id e) _ Hne Hdb Hfiled).
Qed.

Lemma review_only_once_witness :
  result_of (post_review (healthy 31 10) cy_id ann_id five_stars None)
            (state_after
               (post_review review_env cy_id ann_id four_stars (Some "clear"))
               review_board)
  = Ok (Failure 400 "You have already reviewed this user").
Proof.
  unfold result_of.
  rewrite (review_only_once review_env (healthy 31 10) review_board cy_id
             ann_id four_stars five_stars (Some "clear") None cy
             review_admissible_example);
    reflexivity.
Defined.

(** X17. With no earlier review in the way and the database answering, a
    review by a reviewer id that is no ObjectId is answered 500, a review by
    a reviewer id no user has is answered 404, and a review by a known
    reviewer whose rating its path refuses (a number that is not between 1
    and 5, or a value that is no number) is answered 500; in all three cases
    nothing is stored and nothing is emitted. *)
Theorem review_not_created (e : env) (s : server)
    (reviewerId userId : string) (rating : rating_input)
    (comment : option string) :
  available e →
  userId ≠ reviewerId →
  (∀ i r, reviews s !! i = Some r →
          ¬ (Review.userId r = userId ∧ Review.reviewerId r = reviewerId)) →
  let h := post_review e reviewerId userId rating comment in
  (ObjectId.cast reviewerId = None →
   state_after h s = s ∧ emitted h s = []
   ∧ ∃ err, result_of h s = Ok (Failure 500 err))
  ∧ (∀ _id, ObjectId.cast reviewerId = Some _id → users s !! _id = None →
       h s = (Ok (Failure 404 "Reviewer not found"), s, []))
  ∧ (is_Some (user_of s reviewerId) →
     rating = RatingRefused
     ∨ (∃ x, rating = RatingNumber x
             ∧ (Js.le (Js.of_Z 1) x && Js.le x (Js.of_Z 5)) = false) →
     state_after h s = s ∧ emitted h s = []
     ∧ ∃ err, result_of h s = Ok (Failure 500 err)).
Proof.
  intros He Hne Hnew h. subst h. unfold user_of. run_handler.
  rewrite decide_False by exact Hne. rewrite !He. cbn [fst snd app].
  rewrite findOne_none by exact Hnew. cbn [fst snd app]. split; [|split].
  - intros ->. cbn. split_and!; [reflexivity|reflexivity|by eexists].
  - intros _id -> Hnone. cbn [fst snd app]. by rewrite Hnone.
  - intros [reviewer Hrev] Hrat.
    destruct (ObjectId.cast reviewerId) as [_id|]; [|done].
    cbn [mbind option_bind] in Hrev. cbn [fst snd app].
    rewrite Hrev.
    assert (Review_rating rating = None) as ->.
    { destruct Hrat as [->|(x & -> & Hx)]; [reflexivity|].
      unfold Review_rating. rewrite Hx. by destruct (Js.isNaN x). }
    cbn. split_and!; [reflexivity|reflexivity|by eexists].
Qed.

Lemma review_not_created_witness :
  post_review review_env nobody_id ann_id four_stars None review_board
  = (Ok (Failure 404 "Reviewer not found"), review_board, []).
Proof.
  destruct (review_not_created review_env review_board nobody_id ann_id
              four_stars None) as (_ & Hunknown & _).
  - intros c. reflexivity.
  - discriminate.
  - intros i r Hi [_ Hr]. unfold review_board in Hi. cbn [reviews] in Hi.
    destruct (decide (i = 3%N)) as [->|Hne].
    + rewrite lookup_singleton_eq in Hi. injection Hi as <-. discriminate.
    + by rewrite lookup_singleton_ne in Hi.
  - apply (Hunknown nobody_id); reflexivity.
Defined.

(** X18. The handler is not atomic: when the database rejects the read-back
    of the reviews or the update of the rating after the review has been
    created, the answer is 500, yet the review stays stored and no rating is
    changed. *)
Theorem review_stored_despite_error (e : env) (s : server)
    (reviewerId userId : string) (rating : rating_input)
    (comment : option string) (reviewer : User.t) :
  review_admissible e s reviewerId userId rating reviewer →
  is_Some (fault e Review_find_call)
  ∨ is_Some (fault e User_findByIdAndUpdate_call) →
  let h := post_review e reviewerId userId rating comment in
  (∃ err, result_of h s = Ok (Failure 500 err))
  ∧ reviews (state_after h s)
    = <[new_id e := filed_review e reviewer reviewerId userId rating
                      comment]> (reviews s)
  ∧ users (state_after h s) = users s.
Proof.
  intros Hadm Hfault h. subst h. unfold result_of, state_after.
  rewrite (post_review_files e s reviewerId userId rating comment reviewer)
    by exact Hadm.
  destruct (fault e Review_find_call) as [err|].
  { cbn. split_and!; [by eexists|reflexivity|reflexivity]. }
  destruct (ObjectId.cast userId) as [_id|].
  2: { cbn. split_and!; [by eexists|reflexivity|reflexivity]. }
  destruct (Js.isNaN _).
  { cbn. split_and!; [by eexists|reflexivity|reflexivity]. }
  destruct (fault e User_findByIdAndUpdate_call) as [err|].
  - cbn. split_and!; [by eexists|reflexivity|reflexivity].
  - by destruct Hfault as [[? ?]|[? ?]].
Qed.

Lemma find_fails_admissible :
  review_admissible find_fails review_board cy_id ann_id four_stars cy.
Proof.
  split_and!; try reflexivity.
  - discriminate.
  - intros i r Hi [_ Hr]. unfold review_board in Hi. cbn [reviews] in Hi.
    destruct (decide (i = 3%N)) as [->|Hne].
    + rewrite lookup_singleton_eq in Hi. injection Hi as <-. discriminate.
    + by rewrite lookup_singleton_ne in Hi.
  - by eexists.
  - vm_compute. discriminate.
Defined.

Lemma review_stored_despite_error_witness :
  users (state_after (post_review find_fails cy_id ann_id four_stars None)
                     review_board)
  = users review_board.
Proof.
  apply (review_stored_despite_error find_fails review_board cy_id ann_id
           four_stars None cy find_fails_admissible).
  left. eexists. reflexivity.
Defined.

(** X28. The two refusals leave the server as it was: a review posted under
    the reviewer's own id string, and a review posted under a [userId]
    string under which a review by the same reviewer is stored, are answered
    with an error, 400 from the handler or 500 when the lookup of the
    earlier review is itself rejected by the database; no review is created
    and no rating is touched. *)
Theorem review_rejected_atomically (e : env) (s : server)
    (reviewerId userId : string) (rating : rating_input)
    (comment : option string) :
  review_refused s reviewerId userId →
  let h := post_review e reviewerId userId rating comment in
  state_after h s = s
  ∧ emitted h s = []
  ∧ ∃ status err,
      result_of h s = Ok (Failure status err)
      ∧ (status = 400
         ∨ (status = 500 ∧ is_Some (fault e Review_findOne_call))).
Proof.
  intros Hrefused h. subst h. run_handler.
  destruct (decide (userId = reviewerId)) as [Hself|Hother].
  { cbn [fst snd app]. split; [reflexivity|]. split; [reflexivity|].
    exists 400. eexists. split; [reflexivity|by left]. }
  destruct Hrefused as [?|(i & r & Hi & Hu & Hr)]; [done|].
  destruct (fault e Review_findOne_call) as [err|] eqn:Hdb.
  { cbn [fst snd app]. split; [reflexivity|]. split; [reflexivity|].
    exists 500. eexists. split; [reflexivity|]. right. by split. }
  cbn [fst snd app].
  destruct (head (filter _ (docs (reviews s)))) as [r'|] eqn:Hhead.
  { cbn [fst snd app]. split; [reflexivity|]. split; [reflexivity|].
    exists 400. eexists. split; [reflexivity|by left]. }
  exfalso. apply head_None in Hhead.
  assert (r ∈ filter (λ r, Review.userId r = userId
                           ∧ Review.reviewerId r = reviewerId)
                     (docs (reviews s))) as Hin.
  { apply list_elem_of_filter. split; [by split|].
    apply elem_of_docs. by exists i. }
  rewrite Hhead in Hin. by apply elem_of_nil in Hin.
Qed.

Lemma review_rejected_atomically_witness :
  state_after (post_review (healthy 9 9) bea_id ann_id four_stars None)
              review_board
  = review_board
  ∧ state_after (post_review (healthy 9 9) bea_id bea_id four_stars None)
                review_board
    = review_board.
Proof.
  split.
  - apply (review_rejected_atomically (healthy 9 9) review_board bea_id
             ann_id four_stars None).
    right. exists 3%N, review_of_ann_by_bea. split; [reflexivity|].
    by split.
  - apply (review_rejected_atomically (healthy 9 9) review_board bea_id
             bea_id four_stars None).
    left. reflexivity.
Defined.

(** X29. A review needs no rating, and one without poisons the mean: an
    otherwise admissible review that comes without a rating, or for a
    [userId] string under which a review without rating is stored, is
    filed, after which the handler answers 500 and leaves every user's
    rating as it was. *)
Theorem review_without_rating_filed (e : env) (s : server)
    (reviewerId userId : string) (rating : rating_input)
    (comment : option string) (reviewer : User.t) :
  review_admissible e s reviewerId userId rating reviewer →
  rating = RatingMissing
  ∨ (∃ i r, reviews s !! i = Some r ∧ Review.userId r = userId
            ∧ Review.rating r = Js.NoNumber) →
  let h := post_review e reviewerId userId rating comment in
  (∃ err, result_of h s = Ok (Failure 500 err))
  ∧ reviews (state_after h s)
    = <[new_id e := filed_review e reviewer reviewerId userId rating
                      comment]> (reviews s)
  ∧ users (state_after h s) = users s.
Proof.
  intros Hadm Hnone h. subst h. unfold result_of, state_after.
  rewrite (post_review_files e s reviewerId userId rating comment reviewer)
    by exact Hadm.
  destruct (fault e Review_find_call) as [err|].
  { cbn. split_and!; [by eexists|reflexivity|reflexivity]. }
  destruct (ObjectId.cast userId) as [_id|].
  2: { cbn. split_and!; [by eexists|reflexivity|reflexivity]. }
  rewrite averageRating_NaN.
  { cbn. split_and!; [by eexists|reflexivity|reflexivity]. }
  destruct Hadm as (_ & _ & _ & _ & Hid & _).
  cbn [reviews with_reviews].
  destruct Hnone as [->|(i & r & Hi & Hu & Hr)].
  - exists (filed_review e reviewer reviewerId userId RatingMissing comment).
    split; [|reflexivity]. apply list_elem_of_filter.
    split; [reflexivity|]. apply elem_of_docs. exists (new_id e).
    apply lookup_insert_eq.
  - exists r. split; [|exact Hr]. apply list_elem_of_filter.
    split; [exact Hu|]. apply elem_of_docs. exists i.
    rewrite lookup_insert_ne; [exact Hi|]. intros <-.
    apply Hid, elem_of_dom. by eexists.
Qed.

Lemma no_rating_admissible :
  review_admissible review_env review_board cy_id ann_id RatingMissing cy.
Proof.
  split_and!; try reflexivity.
  - discriminate.
  - intros i r Hi [_ Hr]. unfold review_board in Hi. cbn [reviews] in Hi.
    destruct (decide (i = 3%N)) as [->|Hne].
    + rewrite lookup_singleton_eq in Hi. injection Hi as <-. discriminate.
    + by rewrite lookup_singleton_ne in Hi.
  - by eexists.
  - vm_compute. discriminate.
Defined.

Lemma review_without_rating_filed_witness :
  reviews (state_after (post_review review_env cy_id ann_id RatingMissing None)
                       review_board) !! 9%N
  = Some (Review.mk 9 ann_id cy_id "Cy Cole" Js.NoNumber None 30)
  ∧ users (state_after
             (post_review review_env cy_id ann_id RatingMissing None)
             review_board)
    = users review_board.
Proof.
  destruct (review_without_rating_filed review_env review_board cy_id ann_id
              RatingMissing None cy no_rating_admissible)
    as (_ & Hrev & Husers); [by left|].
  split; [|exact Husers]. rewrite Hrev. apply lookup_insert_eq.
Defined.

(** ** Matching *)

Section MatchingProperties.

Variable toLowerCase : string → string.

Lemma elem_of_findMatches currentUser user allUsers :
  user ∈ findMatches toLowerCase currentUser allUsers ↔
  user ∈ allUsers
  ∧ (hasMatchingSkills toLowerCase currentUser user
     || canTeachThem toLowerCase currentUser user) = true.
Proof.
  unfold findMatches. rewrite !list_elem_of_In. apply filter_In.
Qed.

(** X19. Matching is mutual: whoever is found as a match for a user would
    find that user among their own matches. *)
Theorem matching_mutual (currentUser user : Profile.t)
    (allUsers others : list Profile.t) :
  user ∈ findMatches toLowerCase currentUser allUsers →
  currentUser ∈ others →
  currentUser ∈ findMatches toLowerCase user others.
Proof.
  rewrite !elem_of_findMatches. intros [_ Hmatch] Hin.
  split; [exact Hin|]. rewrite orb_comm. exact Hmatch.
Qed.

Lemma existsb_never {A} (l : list A) : existsb (λ _, false) l = false.
Proof. induction l; [reflexivity|exact IHl]. Qed.

(** X20. A user who offers nothing and desires nothing has no matches and
    is nobody's match. *)
Theorem no_skills_no_match (currentUser : Profile.t) :
  Profile.offeredSkills currentUser = [] →
  Profile.desiredSkills currentUser = [] →
  (∀ allUsers, findMatches toLowerCase currentUser allUsers = [])
  ∧ ∀ user others, currentUser ∉ findMatches toLowerCase user others.
Proof.
  intros Hoff Hdes.
  assert (∀ user, hasMatchingSkills toLowerCase currentUser user = false)
    as Hwant by (intros; unfold hasMatchingSkills; by rewrite Hdes).
  assert (∀ user, canTeachThem toLowerCase currentUser user = false)
    as Hteach.
  { intros. unfold canTeachThem. rewrite Hoff. apply existsb_never. }
  split.
  - intros allUsers. unfold findMatches.
    induction allUsers as [|user l IH]; [reflexivity|].
    cbn [List.filter]. by rewrite Hwant, Hteach.
  - intros user others [_ Hmatch]%elem_of_findMatches.
    change (canTeachThem toLowerCase user currentUser)
      with (hasMatchingSkills toLowerCase currentUser user) in Hmatch.
    change (hasMatchingSkills toLowerCase user currentUser)
      with (canTeachThem toLowerCase currentUser user) in Hmatch.
    by rewrite Hwant, Hteach in Hmatch.
Qed.

(** X21. Matching looks at skill names through [toLowerCase] only: writing
    the current user's skills differently without changing their lower-case
    form changes no match. *)
Theorem matching_ignores_case (f : string → string)
    (currentUser : Profile.t) (allUsers : list Profile.t) :
  (∀ x, toLowerCase (f x) = toLowerCase x) →
  findMatches toLowerCase (recase f currentUser) allUsers
  = findMatches toLowerCase currentUser allUsers.
Proof.
  intros Hf. unfold findMatches.
  assert (∀ user,
    hasMatchingSkills toLowerCase (recase f currentUser) user
    = hasMatchingSkills toLowerCase currentUser user) as Hwant.
  { intros user. unfold hasMatchingSkills, recase. cbn.
    induction (Profile.desiredSkills currentUser) as [|d l IH];
      [reflexivity|].
    cbn. rewrite IH, Hf. reflexivity. }
  assert (∀ d (l : list Skill.t),
    existsb (λ offeredSkill,
               bool_decide (toLowerCase (Skill.skill offeredSkill)
                            = toLowerCase d))
            ((λ sk, Skill.mk (Skill._id sk) (f (Skill.skill sk))
                             (Skill.level sk) (Skill.description sk)) <$> l)
    = existsb (λ offeredSkill,
                 bool_decide (toLowerCase (Skill.skill offeredSkill)
                              = toLowerCase d)) l) as Hinner.
  { intros d l. induction l as [|sk l IH]; [reflexivity|].
    cbn. rewrite IH, Hf. reflexivity. }
  assert (∀ user,
    canTeachThem toLowerCase (recase f currentUser) user
    = canTeachThem toLowerCase currentUser user) as Hteach.
  { intros user. unfold canTeachThem, recase. cbn.
    induction (Profile.desiredSkills user) as [|d l IH]; [reflexivity|].
    cbn. rewrite IH, Hinner. reflexivity. }
  induction allUsers as [|user l IH]; [reflexivity|].
  cbn [List.filter]. by rewrite Hwant, Hteach, IH.
Qed.

End MatchingProperties.

Lemma lower_ascii_idem c : lower_ascii (lower_ascii c) = lower_ascii c.
Proof.
  destruct c as [[] [] [] [] [] [] [] []]; vm_compute; reflexivity.
Qed.

Lemma lower_idem s : lower (lower s) = lower s.
Proof.
  induction s as [|c s IH]; [reflexivity|].
  cbn. by rewrite lower_ascii_idem, IH.
Qed.

Lemma matching_mutual_witness :
  learner ∈ findMatches lower pianist [idle; learner].
Proof.
  apply (matching_mutual lower learner pianist [pianist; idle]).
  - apply elem_of_findMatches. split; [left|vm_compute; reflexivity].
  - right. left.
Defined.

Lemma no_skills_no_match_witness :
  findMatches lower idle [pianist; learner] = [].
Proof. apply (no_skills_no_match lower idle); reflexivity. Defined.

Lemma matching_ignores_case_witness :
  findMatches lower (recase lower learner) [pianist; idle]
  = findMatches lower learner [pianist; idle].
Proof.
  apply (matching_ignores_case lower lower learner [pianist; idle]).
  exact lower_idem.
Defined.

(** ** The skill routes *)

(** X22. Adding a desired skill stores it once: afterwards the skill is in
    the user's list, a list without duplicates stays without duplicates,
    the offered skills are untouched, and adding the same skill again changes
    nothing and is answered with the same list without any save. *)
Theorem desired_skill_added_once (e : env) (userId skill : string)
    (profiles : gmap string Profile.t) (user : Profile.t) :
  fault e User_findById_call = None →
  profiles !! userId = Some user →
  ∃ user1,
    let profiles1 := <[userId := user1]> profiles in
    post_desired_skill e None userId skill profiles
    = (SkillsData (Profile.desiredSkills user1), profiles1)
    ∧ skill ∈ Profile.desiredSkills user1
    ∧ (NoDup (Profile.desiredSkills user) →
       NoDup (Profile.desiredSkills user1))
    ∧ Profile.offeredSkills user1 = Profile.offeredSkills user
    ∧ ∀ e' save, fault e' User_findById_call = None →
        post_desired_skill e' save userId skill profiles1
        = (SkillsData (Profile.desiredSkills user1), profiles1).
Proof.
  intros Hdb Huser.
  assert (∀ user1, skill ∈ Profile.desiredSkills user1 →
            ∀ e' save, fault e' User_findById_call = None →
              post_desired_skill e' save userId skill
                                 (<[userId := user1]> profiles)
              = (SkillsData (Profile.desiredSkills user1),
                 <[userId := user1]> profiles)) as Hagain.
  { intros user1 Hin e' save Hdb'. unfold post_desired_skill, with_user.
    rewrite Hdb', lookup_insert_eq. by rewrite bool_decide_eq_true_2. }
  unfold post_desired_skill, with_user, save_user. rewrite Hdb, Huser.
  destruct (bool_decide (skill ∈ Profile.desiredSkills user)) eqn:Hhas.
  - apply bool_decide_eq_true in Hhas. exists user. cbn zeta.
    rewrite insert_id by exact Huser. split_and!; try done.
    intros e' save Hdb'. specialize (Hagain user Hhas e' save Hdb').
    by rewrite insert_id in Hagain.
  - apply bool_decide_eq_false in Hhas.
    exists (Profile.with_desiredSkills
              (Profile.desiredSkills user ++ [skill]) user).
    cbn zeta. cbn [Profile.desiredSkills Profile.with_desiredSkills
                   Profile.offeredSkills].
    assert (skill ∈ Profile.desiredSkills user ++ [skill]) as Hin.
    { apply elem_of_app. right. by apply list_elem_of_singleton. }
    split_and!; [reflexivity|exact Hin| |reflexivity|].
    + intros Hnodup. apply NoDup_app.
      split_and!; [exact Hnodup| |apply NoDup_singleton].
      intros x Hx Hx'. apply list_elem_of_singleton in Hx' as ->. by apply Hhas.
    + intros e' save Hdb'.
      by apply (Hagain (Profile.with_desiredSkills
                          (Profile.desiredSkills user ++ [skill]) user)).
Qed.

Lemma desired_skill_added_once_witness :
  ∃ user1,
    post_desired_skill (healthy 1 5) None "A" "Tango" profiles_example
    = (SkillsData (Profile.desiredSkills user1),
       <["A" := user1]> profiles_example)
    ∧ "Tango" ∈ Profile.desiredSkills user1.
Proof.
  destruct (desired_skill_added_once (healthy 1 5) "A" "Tango"
              profiles_example
              (Profile.mk [Skill.mk 1 "piano" (Some "expert") None]
                          ["Chess"; "Go"]))
    as (user1 & Hres & Hin & _); [reflexivity|reflexivity|].
  exists user1. split; [exact Hres|exact Hin].
Defined.

Lemma filter_ne_absent (l : list string) (skill : string) :
  skill ∉ l → filter (λ s, s ≠ skill) l = l.
Proof.
  induction l as [|x l IH]; intros Hno; [reflexivity|].
  rewrite filter_cons, decide_True.
  - f_equal. apply IH. intros Hin. apply Hno. by right.
  - intros ->. apply Hno. left.
Qed.

Section DesiredSkillDeleted.

Variable decodeURIComponent : string → option string.

(** X23. [DELETE /api/users/skills/desired/:skill] decodes its parameter
    before it looks the user up. A parameter [decodeURIComponent] throws on
    is answered 500 and nothing is changed. Otherwise the skill deleted is
    the one the parameter decodes to: every occurrence of it is removed and
    the other skills keep their order, so that adding a new skill and
    deleting it through a parameter that decodes to it gives back the list
    the user had. *)
Theorem desired_skill_deleted (e e' : env) (userId param skill : string)
    (profiles : gmap string Profile.t) (user : Profile.t) :
  fault e User_findById_call = None →
  fault e' User_findById_call = None →
  profiles !! userId = Some user →
  (decodeURIComponent param = None →
   ∀ save, delete_desired_skill decodeURIComponent e save userId param
             profiles
           = (SkillsFailure 500 "URI malformed", profiles))
  ∧ (decodeURIComponent param = Some skill →
     (∃ l, delete_desired_skill decodeURIComponent e None userId param
             profiles
           = (SkillsData l,
              <[userId := Profile.with_desiredSkills l user]> profiles)
           ∧ (skill ∉ l)
           ∧ (∀ s, s ≠ skill → s ∈ l ↔ s ∈ Profile.desiredSkills user)
           ∧ l `sublist_of` Profile.desiredSkills user)
     ∧ (skill ∉ Profile.desiredSkills user →
        (delete_desired_skill decodeURIComponent e' None userId param
           (post_desired_skill e None userId skill profiles).2).1
        = SkillsData (Profile.desiredSkills user))).
Proof.
  intros Hdb Hdb' Huser. split.
  { intros Hbad save. unfold delete_desired_skill. by rewrite Hbad. }
  intros Hdec. split.
  - eexists. unfold delete_desired_skill, with_user, save_user.
    rewrite Hdec, Hdb, Huser. split; [reflexivity|]. split_and!.
    + rewrite list_elem_of_filter. by intros [? _].
    + intros s Hs. rewrite list_elem_of_filter. tauto.
    + apply sublist_filter.
  - intros Hnew.
    unfold delete_desired_skill, post_desired_skill, with_user, save_user.
    rewrite Hdec, Hdb, Huser. rewrite bool_decide_eq_false_2 by exact Hnew.
    cbn [fst snd]. rewrite Hdb', lookup_insert_eq.
    cbn [fst Profile.desiredSkills Profile.with_desiredSkills]. f_equal.
    rewrite filter_app, filter_cons, filter_nil.
    rewrite decide_False by (intros H; by apply H).
    rewrite app_nil_r. by apply filter_ne_absent.
Qed.

End DesiredSkillDeleted.

Lemma desired_skill_deleted_witness :
  delete_desired_skill decode_ascii (healthy 2 6) None "A" "100%"
    (post_desired_skill (healthy 1 5) None "A" "100%" profiles_example).2
  = (SkillsFailure 500 "URI malformed",
     (post_desired_skill (healthy 1 5) None "A" "100%" profiles_example).2)
  ∧ (delete_desired_skill decode_ascii (healthy 2 6) None "A" "100%25"
       (post_desired_skill (healthy 1 5) None "A" "100%" profiles_example).2).1
    = SkillsData ["Chess"; "Go"].
Proof.
  split.
  - destruct (desired_skill_deleted decode_ascii (healthy 2 6) (healthy 2 6)
                "A" "100%" "100%"
                (post_desired_skill (healthy 1 5) None "A" "100%"
                                    profiles_example).2
                (Profile.mk [Skill.mk 1 "piano" (Some "expert") None]
                            ["Chess"; "Go"; "100%"]))
      as (Hbad & _); [reflexivity|reflexivity|reflexivity|].
    apply Hbad. reflexivity.
  - destruct (desired_skill_deleted decode_ascii (healthy 1 5) (healthy 2 6)
                "A" "100%25" "100%" profiles_example
                (Profile.mk [Skill.mk 1 "piano" (Some "expert") None]
                            ["Chess"; "Go"]))
      as (_ & Hgood); [reflexivity|reflexivity|reflexivity|].
    destruct (Hgood eq_refl) as (_ & Hback). apply Hback.
    intros H. apply (bool_decide_pack _) in H. vm_compute in H. exact H.
Defined.

(** X24. An offered skill is stored under the [_id] it was given and is
    removed by that [_id]: adding a skill and deleting it by its [_id] gives
    back the offered skills the user had, when no entry had that [_id]
    before. *)
Theorem offered_skill_round_trip (e e' : env) (userId skill : string)
    (level description : option string)
    (profiles : gmap string Profile.t) (user : Profile.t) :
  fault e User_findById_call = None →
  fault e' User_findById_call = None →
  profiles !! userId = Some user →
  Forall (λ sk, Skill._id sk ≠ new_id e) (Profile.offeredSkills user) →
  (post_offered_skill e None userId skill level description profiles).1
  = SkillsData (Profile.offeredSkills user
                ++ [Skill.mk (new_id e) skill level description])
  ∧ delete_offered_skill e' None userId (new_id e)
      (post_offered_skill e None userId skill level description profiles).2
    = (SkillsData (Profile.offeredSkills user), profiles).
Proof.
  intros Hdb Hdb' Huser Hfresh.
  unfold delete_offered_skill, post_offered_skill, with_user, save_user.
  rewrite Hdb, Huser. cbn [fst snd]. split; [reflexivity|].
  rewrite Hdb', lookup_insert_eq.
  cbn [Profile.offeredSkills Profile.with_offeredSkills].
  rewrite filter_app, filter_cons, filter_nil.
  rewrite decide_False by (intros H; by apply H). rewrite app_nil_r.
  assert (filter (λ sk, Skill._id sk ≠ new_id e) (Profile.offeredSkills user)
          = Profile.offeredSkills user) as ->.
  { induction Hfresh as [|sk l Hsk _ IH]; [reflexivity|].
    rewrite filter_cons, decide_True by exact Hsk. by rewrite IH. }
  f_equal. rewrite insert_insert_eq.
  rewrite insert_id; [reflexivity|]. rewrite Huser. by destruct user.
Qed.

Lemma offered_skill_round_trip_witness :
  delete_offered_skill (healthy 2 6) None "A" 5
    (post_offered_skill (healthy 1 5) None "A" "violin" None None
                        profiles_example).2
  = (SkillsData [Skill.mk 1 "piano" (Some "expert") None], profiles_example).
Proof.
  apply (offered_skill_round_trip (healthy 1 5) (healthy 2 6) "A" "violin"
           None None profiles_example
           (Profile.mk [Skill.mk 1 "piano" (Some "expert") None]
                       ["Chess"; "Go"])); try reflexivity.
  repeat constructor. discriminate.
Defined.

(** X25. A skill route works on the caller's profile only: whatever the
    request and whatever the database answers, no profile is created, none
    is removed, and the profile of every other user is as before. *)
Theorem skill_routes_stay_home
    (decodeURIComponent : string → option string) (e : env)
    (save : option error) (userId : string) (r : skill_request)
    (profiles : gmap string Profile.t) :
  dom (skill_route decodeURIComponent e save userId r profiles) = dom profiles
  ∧ ∀ other, other ≠ userId →
      skill_route decodeURIComponent e save userId r profiles !! other
      = profiles !! other.
Proof.
  assert (∀ user' : Profile.t, is_Some (profiles !! userId) →
            dom (<[userId := user']> profiles) = dom profiles) as Hdom.
  { intros user' Hin. rewrite dom_insert_L. apply elem_of_dom in Hin.
    apply set_eq. intros x. rewrite elem_of_union, elem_of_singleton.
    split; [intros [->|?]; done|by right]. }
  destruct r; unfold skill_route, post_offered_skill, delete_offered_skill,
    post_desired_skill, delete_desired_skill, with_user, save_user;
    try destruct (decodeURIComponent _); cbn [snd]; try done;
    destruct (fault e User_findById_call); cbn [snd]; try done;
    destruct (profiles !! userId) as [user|] eqn:Huser; cbn [snd]; try done;
    try destruct (bool_decide _); destruct save; cbn [snd]; try done;
    (split; [by apply Hdom|intros other Hother; by rewrite lookup_insert_ne]).
Qed.

(** ** Registration and login *)

Section AuthProperties.

Variable bcrypt_hash : N → string → string.
Variable bcrypt_compare : string → string → bool.
Variable jwt_sign : N → N → string.

Lemma findOne_email_fresh email (accounts : gmap N Account.t) i user :
  User_findOne_email email accounts = None →
  accounts !! i = None →
  Account.email user = email →
  User_findOne_email email (<[i := user]> accounts) = Some user.
Proof.
  unfold User_findOne_email. intros Hnone Hi Hemail.
  apply head_None in Hnone.
  assert (filter (λ u, Account.email u = email)
                 (docs (<[i := user]> accounts)) ≡ₚ [user]) as Hperm.
  { rewrite docs_insert_fresh by exact Hi.
    rewrite filter_cons, decide_True by exact Hemail. by rewrite Hnone. }
  apply Permutation_singleton_r in Hperm. by rewrite Hperm.
Qed.

(** X26. Registering and then logging in with the same email and password
    succeeds, for the same public user and with a token for the same id,
    whenever [bcrypt.compare] accepts a password against its own hash; a
    password it rejects is answered ["Invalid credentials"]. The stored
    password is the hash. *)
Theorem register_then_login (e e' : auth_env)
    (firstName lastName email password : string)
    (accounts : gmap N Account.t) :
  findOne_fault e = None → create_fault e = None →
  findOne_fault e' = None →
  auth_id e ∉ dom accounts →
  User_findOne_email email accounts = None →
  let user := Account.mk (auth_id e) firstName lastName email
                         (bcrypt_hash (auth_salt e) password) in
  let registered :=
    registerUser bcrypt_hash jwt_sign e firstName lastName email password
                 accounts in
  registered
  = (Ok (publicUser user, jwt_sign (auth_now e) (auth_id e)),
     <[auth_id e := user]> accounts)
  ∧ (bcrypt_compare password (bcrypt_hash (auth_salt e) password) = true →
     loginUser bcrypt_compare jwt_sign e' email password registered.2
     = Ok (publicUser user, jwt_sign (auth_now e') (auth_id e)))
  ∧ ∀ wrong,
      bcrypt_compare wrong (bcrypt_hash (auth_salt e) password) = false →
      loginUser bcrypt_compare jwt_sign e' email wrong registered.2
      = Throw (plain_error "Invalid credentials").
Proof.
  intros Hf Hc Hf' Hid Hnew user registered.
  assert (registered
          = (Ok (publicUser user, jwt_sign (auth_now e) (auth_id e)),
             <[auth_id e := user]> accounts)) as Hreg.
  { subst registered. unfold registerUser. rewrite Hf, Hnew, Hc.
    by rewrite decide_False. }
  rewrite Hreg. cbn [snd]. split; [reflexivity|].
  assert (User_findOne_email email (<[auth_id e := user]> accounts)
          = Some user) as Hfound.
  { apply findOne_email_fresh; [exact Hnew| |reflexivity].
    by apply not_elem_of_dom. }
  split.
  - intros Hok. unfold loginUser. rewrite Hf', Hfound. cbn. by rewrite Hok.
  - intros wrong Hwrong. unfold loginUser. rewrite Hf', Hfound. cbn.
    by rewrite Hwrong.
Qed.

(** X27. An email is registered once: registering an email that is taken
    throws ["User already exists"] and stores nothing, so that registration
    keeps the emails of the stored accounts distinct; logging in with an
    email nobody registered throws ["User not found"]. *)
Theorem email_registered_once (e : auth_env)
    (firstName lastName email password : string)
    (accounts : gmap N Account.t) :
  findOne_fault e = None →
  let registered :=
    registerUser bcrypt_hash jwt_sign e firstName lastName email password
                 accounts in
  (∀ i u, accounts !! i = Some u → Account.email u = email →
     registered = (Throw (plain_error "User already exists"), accounts))
  ∧ (emails_unique accounts → emails_unique registered.2)
  ∧ ((∀ i u, accounts !! i = Some u → Account.email u ≠ email) →
     loginUser bcrypt_compare jwt_sign e email password accounts
     = Throw (plain_error "User not found")).
Proof.
  intros Hf registered. subst registered. split; [|split].
  - intros i u Hi Hu. unfold registerUser. rewrite Hf.
    destruct (findOne_some (λ u, Account.email u = email) accounts i u Hi Hu)
      as [u' Hu'].
    unfold User_findOne_email. by rewrite Hu'.
  - intros Huniq. unfold registerUser. rewrite Hf.
    destruct (User_findOne_email email accounts) as [u|] eqn:Hfind;
      [exact Huniq|].
    destruct (create_fault e); [exact Huniq|].
    destruct (decide (auth_id e ∈ dom accounts)) as [Hid|Hid];
      [exact Huniq|]. cbn [snd].
    assert (∀ j v, accounts !! j = Some v → Account.email v ≠ email)
      as Hfree.
    { intros j v Hj Hv. unfold User_findOne_email in Hfind.
      destruct (findOne_some (λ u, Account.email u = email) accounts j v Hj
                  Hv) as [v' Hv'].
      congruence. }
    intros i j u v Hi Hj Heq. rewrite lookup_insert in Hi, Hj.
    destruct (decide (auth_id e = i)) as [<-|Hi'],
             (decide (auth_id e = j)) as [<-|Hj']; [reflexivity| | |].
    + injection Hi as <-. cbn in Heq. by destruct (Hfree j v Hj).
    + injection Hj as <-. cbn in Heq. by destruct (Hfree i u Hi).
    + by apply (Huniq i j u v).
  - intros Hfree. unfold loginUser, User_findOne_email. rewrite Hf.
    by rewrite findOne_none.
Qed.

End AuthProperties.

Lemma register_then_login_witness :
  loginUser toy_compare toy_sign sign_in "ann@example.org" "s3cret"
    (registerUser toy_hash toy_sign sign_up "Ann" "Abel" "ann@example.org"
                  "s3cret" ∅).2
  = Ok (Account.mk_public 1 "Ann" "Abel" "ann@example.org", toy_sign 200 1).
Proof.
  destruct (register_then_login toy_hash toy_compare toy_sign sign_up sign_in
              "Ann" "Abel" "ann@example.org" "s3cret" ∅)
    as (_ & Hlogin & _);
    [reflexivity|reflexivity|reflexivity|apply fresh_in_empty|reflexivity|].
  apply Hlogin. vm_compute. reflexivity.
Defined.

Lemma email_registered_once_witness :
  registerUser toy_hash toy_sign sign_in "Anna" "Abel" "ann@example.org"
               "0ther" ann_registered
  = (Throw (plain_error "User already exists"), ann_registered).
Proof.
  destruct (email_registered_once toy_hash toy_compare toy_sign sign_in
              "Anna" "Abel" "ann@example.org" "0ther" ann_registered)
    as (Htaken & _); [reflexivity|].
  apply (Htaken 1%N ann_account); [|reflexivity].
  apply lookup_singleton_eq.
Defined.
